(** * BhashaChat: the conversation manager of src/main.py

    A shallow embedding of [ConversationManager], of the assessment
    extraction inside [get_response], of the [conversations] registry and of
    the three session endpoints, followed by the properties the
    specification states about them.

    Conventions.
    - A Python [str] is a list of Unicode code points ([list N]).
    - A Python [int] is a [Z].
    - A call that can raise returns an [option] or a sum; [None] is the
      raised exception.
    - [model.generate_content] and [text_to_speech] are remote services:
      the outcome of each call is an input of the operation that makes it,
      and nothing is assumed of how it depends on the prompt, so the text
      of the prompts is left out. *)

From Stdlib Require Import ZArith NArith List String Ascii Bool Lia DecimalString.
From stdpp Require Import base option list gmap.

Open Scope N_scope.

(** ** Python strings *)

Module Str.

Abbreviation str := (list N).

(** Code points of a UTF-8 byte sequence: the way a Python source literal
    becomes a [str]. *)
Fixpoint utf8_decode (bs : list N) : str :=
  match bs with
  | [] => []
  | b :: r =>
    if b <? 0x80 then b :: utf8_decode r
    else if b <? 0xE0 then
      match r with
      | b1 :: r1 =>
        N.lor (N.shiftl (N.land b 0x1F) 6) (N.land b1 0x3F) :: utf8_decode r1
      | _ => []
      end
    else if b <? 0xF0 then
      match r with
      | b1 :: b2 :: r2 =>
        N.lor (N.shiftl (N.land b 0x0F) 12)
          (N.lor (N.shiftl (N.land b1 0x3F) 6) (N.land b2 0x3F))
        :: utf8_decode r2
      | _ => []
      end
    else
      match r with
      | b1 :: b2 :: b3 :: r3 =>
        N.lor (N.shiftl (N.land b 0x07) 18)
          (N.lor (N.shiftl (N.land b1 0x3F) 12)
             (N.lor (N.shiftl (N.land b2 0x3F) 6) (N.land b3 0x3F)))
        :: utf8_decode r3
      | _ => []
      end
  end.

Fixpoint bytes_of (s : string) : list N :=
  match s with
  | EmptyString => []
  | String a r => N_of_ascii a :: bytes_of r
  end.

(** A literal of the source file. *)
Definition lit (s : string) : str := utf8_decode (bytes_of s).

(** A text written with ['] where it has a double quote. *)
Definition dq (s : string) : str :=
  map (fun c => if c =? 39 then 34 else c) (lit s).

Definition eqb (a b : str) : bool := bool_decide (a = b).

(** [s.startswith(p)] *)
Fixpoint startswith (p s : str) : bool :=
  match p, s with
  | [], _ => true
  | _ :: _, [] => false
  | a :: p', b :: s' => (a =? b) && startswith p' s'
  end.

(** [sub in s] *)
Fixpoint contains (sub s : str) : bool :=
  startswith sub s ||
  match s with
  | [] => false
  | _ :: s' => contains sub s'
  end.

(** [s.index(sub)]; [None] is the ValueError of an absent [sub]. *)
Fixpoint index (sub s : str) : option nat :=
  if startswith sub s then Some 0%nat
  else match s with
       | [] => None
       | _ :: s' => S <$> index sub s'
       end.

(** [s.rindex(sub)]: the start of the last occurrence. *)
Fixpoint rindex (sub s : str) : option nat :=
  match s with
  | [] => if startswith sub [] then Some 0%nat else None
  | _ :: s' =>
    match rindex sub s' with
    | Some i => Some (S i)
    | None => if startswith sub s then Some 0%nat else None
    end
  end.

(** [s[i:j]] for non-negative [i] and [j]. *)
Definition slice (s : str) (i j : nat) : str := take (j - i) (drop i s).

(** The code points [str.isspace] accepts, which [str.strip()] removes. *)
Definition isspace (c : N) : bool :=
  ((9 <=? c) && (c <=? 13)) || ((28 <=? c) && (c <=? 32))
  || (c =? 133) || (c =? 160) || (c =? 5760)
  || ((8192 <=? c) && (c <=? 8202))
  || (c =? 8232) || (c =? 8233) || (c =? 8239) || (c =? 8287) || (c =? 12288).

Fixpoint lstrip (s : str) : str :=
  match s with
  | [] => []
  | c :: r => if isspace c then lstrip r else s
  end.

Definition rstrip (s : str) : str := rev (lstrip (rev s)).

(** [s.strip()] *)
Definition strip (s : str) : str := rstrip (lstrip s).

(** [s.replace(old, new)] for a non-empty [old]: occurrences are taken from
    the left and do not overlap.  [skip] counts the code points of a matched
    occurrence that are still to be passed over. *)
Fixpoint replace_from (old new : str) (skip : nat) (s : str) : str :=
  match s with
  | [] => []
  | c :: r =>
    match skip with
    | S k => replace_from old new k r
    | O =>
      if startswith old s
      then new ++ replace_from old new (length old - 1) r
      else c :: replace_from old new 0 r
    end
  end.

(** [s.replace(old, new)]; an empty [old] puts [new] around every code
    point. *)
Definition replace (old new s : str) : str :=
  match old with
  | [] => new ++ flat_map (fun c => c :: new) s
  | _ => replace_from old new 0 s
  end.

End Str.

Import Str.

(** ** JSON values and the decoder of the [json] module *)

(** What [json.loads] builds: [None], [bool], [int], [float], [str], [list]
    and [dict].  A float is kept as the decimal literal it was read from; a
    dict keeps its keys in insertion order, each key once. *)
#[warnings="-register-all"]
Inductive JSON : Type :=
| JNull
| JBool (b : bool)
| JInt (z : Z)
| JFloat (literal : str)
| JStr (s : str)
| JList (items : list JSON)
| JDict (pairs : list (str * JSON)).

(** [d[k] = v] on a dict. *)
Fixpoint dict_set (k : str) (v : JSON) (d : list (str * JSON)) : list (str * JSON) :=
  match d with
  | [] => [(k, v)]
  | (k', v') :: r => if Str.eqb k' k then (k', v) :: r else (k', v') :: dict_set k v r
  end.

(** [dict(pairs)] *)
Definition dict_of_pairs (ps : list (str * JSON)) : list (str * JSON) :=
  fold_left (fun d kv => dict_set kv.1 kv.2 d) ps [].

(** [k in d] on a dict. *)
Definition dict_has (k : str) (d : list (str * JSON)) : bool :=
  existsb (fun kv => Str.eqb kv.1 k) d.

(** [d.get(k)] *)
Fixpoint dict_get (k : str) (d : list (str * JSON)) : option JSON :=
  match d with
  | [] => None
  | (k', v) :: r => if Str.eqb k' k then Some v else dict_get k r
  end.

Module Decoder.

(** json.decoder.WHITESPACE: space, tab, line feed, carriage return. *)
Definition ws (c : N) : bool := (c =? 32) || (c =? 9) || (c =? 10) || (c =? 13).

Fixpoint skip_ws (s : str) : str :=
  match s with
  | [] => []
  | c :: r => if ws c then skip_ws r else s
  end.

Definition digit (c : N) : bool := (48 <=? c) && (c <=? 57).

Definition hexval (c : N) : option N :=
  if digit c then Some (c - 48)
  else if (97 <=? c) && (c <=? 102) then Some (c - 87)
  else if (65 <=? c) && (c <=? 70) then Some (c - 55)
  else None.

(** The four hex digits of a [\uXXXX] escape. *)
Definition hex4 (a b c d : N) : option N :=
  x1 ← hexval a; x2 ← hexval b; x3 ← hexval c; x4 ← hexval d;
  Some (((x1 * 16 + x2) * 16 + x3) * 16 + x4).

(** BACKSLASH: the one-letter escapes. *)
Definition backslash (c : N) : option N :=
  if c =? 34 then Some 34          (* quote *)
  else if c =? 92 then Some 92     (* backslash *)
  else if c =? 47 then Some 47     (* slash *)
  else if c =? 98 then Some 8      (* b *)
  else if c =? 102 then Some 12    (* f *)
  else if c =? 110 then Some 10    (* n *)
  else if c =? 114 then Some 13    (* r *)
  else if c =? 116 then Some 9     (* t *)
  else None.

(** scanstring, strict: [s] starts after the opening quote; the result is
    the decoded string and what follows the closing quote.  [acc] holds the
    decoded code points, last first. *)
Fixpoint scanstring (s : str) (acc : str) : option (str * str) :=
  match s with
  | [] => None
  | c :: r =>
    if c =? 34 then Some (rev acc, r)
    else if c <? 32 then None
    else if c =? 92 then
      match r with
      | [] => None
      | e :: r1 =>
        if e =? 117 then
          match r1 with
          | h1 :: h2 :: h3 :: h4 :: r2 =>
            match hex4 h1 h2 h3 h4 with
            | None => None
            | Some uni =>
              if (0xD800 <=? uni) && (uni <=? 0xDBFF) then
                match r2 with
                | b :: u :: r3 =>
                  if (b =? 92) && (u =? 117) then
                    match r3 with
                    | g1 :: g2 :: g3 :: g4 :: r4 =>
                      match hex4 g1 g2 g3 g4 with
                      | None => None
                      | Some uni2 =>
                        if (0xDC00 <=? uni2) && (uni2 <=? 0xDFFF)
                        then scanstring r4
                               (0x10000 + N.lor (N.shiftl (uni - 0xD800) 10) (uni2 - 0xDC00)
                                :: acc)
                        else scanstring r2 (uni :: acc)
                      end
                    | _ => None
                    end
                  else scanstring r2 (uni :: acc)
                | _ => scanstring r2 (uni :: acc)
                end
              else scanstring r2 (uni :: acc)
            end
          | _ => None
          end
        else
          match backslash e with
          | Some x => scanstring r1 (x :: acc)
          | None => None
          end
      end
    else scanstring r (c :: acc)
  end.

(** The longest run of decimal digits at the start of [s], and the rest. *)
Fixpoint digits (s : str) : str * str :=
  match s with
  | c :: r => if digit c then let '(d, t) := digits r in (c :: d, t) else ([], s)
  | [] => ([], [])
  end.

(** [int(text)] for a run of decimal digits. *)
Definition int_of_digits (d : str) : Z :=
  fold_left (fun acc c => (acc * 10 + Z.of_N (c - 48))%Z) d 0%Z.

(** NUMBER_RE: an optional minus sign, then a zero or a run of digits that
    does not start with zero; then, optionally, a point and digits; then,
    optionally, e or E, a sign and digits.  The integer part is mandatory; a
    fraction or an exponent without digits is not part of the match. *)
Definition match_number (s : str) : option (JSON * str) :=
  let '(neg, s1) := match s with
                    | c :: r => if c =? 45 then (true, r) else (false, s)
                    | [] => (false, s)
                    end in
  let sign := if neg then [45] else [] in
  match s1 with
  | [] => None
  | c :: r =>
    if digit c then
      let '(ip, s2) := if c =? 48 then ([c], r) else digits s1 in
      let '(frac, s3) :=
        match s2 with
        | p :: t =>
          if p =? 46 then
            match digits t with
            | ([], _) => ([], s2)
            | (fd, t') => (p :: fd, t')
            end
          else ([], s2)
        | [] => ([], s2)
        end in
      let '(ex, s4) :=
        match s3 with
        | e :: t =>
          if (e =? 101) || (e =? 69) then
            let '(sg, t1) := match t with
                             | g :: t' => if (g =? 43) || (g =? 45) then ([g], t') else ([], t)
                             | [] => ([], t)
                             end in
            match digits t1 with
            | ([], _) => ([], s3)
            | (ed, t') => (e :: sg ++ ed, t')
            end
          else ([], s3)
        | [] => ([], s3)
        end in
      match frac, ex with
      | [], [] => Some (JInt (if neg then - int_of_digits ip else int_of_digits ip)%Z, s4)
      | _, _ => Some (JFloat (sign ++ ip ++ frac ++ ex), s4)
      end
    else None
  end.

(** [s[idx:idx + len(w)] == w], giving what follows. *)
Definition word (w s : str) : option str :=
  if startswith w s then Some (drop (length w) s) else None.

(** The scanner: [scan_once] reads one value, [JSONObject] the members of an
    object after a key's opening quote, [JSONArray] the items of an array.
    Every call spends one unit of [fuel]; a chain of calls reads at least
    one code point per call, so [length s + 2] units are enough for [s]. *)
Fixpoint scan_once (fuel : nat) (s : str) : option (JSON * str) :=
  match fuel with
  | O => None
  | S fuel' =>
    match s with
    | [] => None
    | c :: r =>
      if c =? 34 then '(x, t) ← scanstring r []; Some (JStr x, t)
      else if c =? 123 then
        match skip_ws r with
        | c1 :: t =>
          if c1 =? 125 then Some (JDict [], t)
          else if c1 =? 34 then JSONObject fuel' t []
          else None
        | [] => None
        end
      else if c =? 91 then
        match skip_ws r with
        | c1 :: t => if c1 =? 93 then Some (JList [], t) else JSONArray fuel' (c1 :: t) []
        | [] => None
        end
      else
        match word (lit "null") s, word (lit "true") s, word (lit "false") s with
        | Some t, _, _ => Some (JNull, t)
        | _, Some t, _ => Some (JBool true, t)
        | _, _, Some t => Some (JBool false, t)
        | _, _, _ =>
          match match_number s with
          | Some res => Some res
          | None =>
            match word (lit "NaN") s, word (lit "Infinity") s, word (lit "-Infinity") s with
            | Some t, _, _ => Some (JFloat (lit "NaN"), t)
            | _, Some t, _ => Some (JFloat (lit "Infinity"), t)
            | _, _, Some t => Some (JFloat (lit "-Infinity"), t)
            | _, _, _ => None
            end
          end
        end
    end
  end
with JSONObject (fuel : nat) (s : str) (pairs : list (str * JSON)) : option (JSON * str) :=
  match fuel with
  | O => None
  | S fuel' =>
    '(key, s1) ← scanstring s [];
    match skip_ws s1 with
    | c :: s2 =>
      if c =? 58 then
        '(value, s3) ← scan_once fuel' (skip_ws s2);
        let pairs' := pairs ++ [(key, value)] in
        match skip_ws s3 with
        | n :: s4 =>
          if n =? 125 then Some (JDict (dict_of_pairs pairs'), s4)
          else if n =? 44 then
            match skip_ws s4 with
            | q :: s5 => if q =? 34 then JSONObject fuel' s5 pairs' else None
            | [] => None
            end
          else None
        | [] => None
        end
      else None
    | [] => None
    end
  end
with JSONArray (fuel : nat) (s : str) (values : list JSON) : option (JSON * str) :=
  match fuel with
  | O => None
  | S fuel' =>
    '(value, s1) ← scan_once fuel' s;
    let values' := values ++ [value] in
    match skip_ws s1 with
    | n :: s2 =>
      if n =? 93 then Some (JList values', s2)
      else if n =? 44 then JSONArray fuel' (skip_ws s2) values'
      else None
    | [] => None
    end
  end.

(** [JSONDecoder().decode(s)], which is what [json.loads(s)] runs: one value
    between optional whitespace, and nothing after it.  [None] is the
    JSONDecodeError.  (The interpreter's limits on nesting depth and on the
    number of digits of an int are not part of this model.) *)
Definition decode (s : str) : option JSON :=
  '(obj, rest) ← scan_once (length s + 2) (skip_ws s);
  match skip_ws rest with
  | [] => Some obj
  | _ => None
  end.

End Decoder.

(** ** What the interpreter supplies *)

Definition is_ascii (c : N) : bool := c <? 128.

(** The lower-case form of an ASCII code point. *)
Definition ascii_lower (c : N) : N := if (65 <=? c) && (c <=? 90) then c + 32 else c.

(** [str.lower] follows the Unicode character database and [json.loads] is
    the interpreter's decoder; the program is modelled over any pair of them.
    Of [str.lower] only its action on ASCII text is fixed; of [json.loads]
    nothing is: [None] is an exception raised by the call. *)
Class Python := {
  str_lower : str -> str;
  json_loads : str -> option JSON;
  str_lower_ascii :
    forall s : str, forallb is_ascii s = true -> str_lower s = map ascii_lower s
}.

(** An interpreter whose [str.lower] changes ASCII letters only and whose
    [json.loads] is [Decoder.decode]. *)
#[refine] Instance reference_python : Python :=
  {| str_lower := map ascii_lower; json_loads := Decoder.decode |}.
Proof. reflexivity. Defined.

(** ** The language table of get_system_prompt *)

Record LanguageConfig := {
  name : str;
  instruction : str;
  aspects : str
}.

#[global] Instance LanguageConfig_eq_dec : EqDecision LanguageConfig.
Proof. solve_decision. Defined.

Definition english_config : LanguageConfig :=
  {| name := lit "English";
     instruction := lit "Respond in English";
     aspects := lit "pronunciation, grammar, and vocabulary" |}.

Definition hindi_config : LanguageConfig :=
  {| name := lit "Hindi (हिंदी)";
     instruction := lit "Respond in Hindi (Devanagari script). Use simple, conversational Hindi that a learner would understand.";
     aspects := lit "pronunciation (उच्चारण), grammar (व्याकरण), and vocabulary (शब्दावली)" |}.

Definition kannada_config : LanguageConfig :=
  {| name := lit "Kannada (ಕನ್ನಡ)";
     instruction := lit "Respond in Kannada (Kannada script). Use simple, conversational Kannada that a learner would understand.";
     aspects := lit "pronunciation (ಉಚ್ಚಾರಣೆ), grammar (ವ್ಯಾಕರಣ), and vocabulary (ಶಬ್ದಕೋಶ)" |}.

Definition tamil_config : LanguageConfig :=
  {| name := lit "Tamil (தமிழ்)";
     instruction := lit "Respond in Tamil (Tamil script). Use simple, conversational Tamil that a learner would understand.";
     aspects := lit "pronunciation (உச்சரிப்பு), grammar (இலக்கணம்), and vocabulary (சொல்வளம்)" |}.

Definition telugu_config : LanguageConfig :=
  {| name := lit "Telugu (తెలుగు)";
     instruction := lit "Respond in Telugu (Telugu script). Use simple, conversational Telugu that a learner would understand.";
     aspects := lit "pronunciation (ఉచ్చారణ), grammar (వ్యాకరణం), and vocabulary (పదకోశం)" |}.

Definition malayalam_config : LanguageConfig :=
  {| name := lit "Malayalam (മലയാളം)";
     instruction := lit "Respond in Malayalam (Malayalam script). Use simple, conversational Malayalam that a learner would understand.";
     aspects := lit "pronunciation (ഉച്ചാരണം), grammar (വ്യാകരണം), and vocabulary (പദസമ്പത്ത്)" |}.

Definition bengali_config : LanguageConfig :=
  {| name := lit "Bengali (বাংলা)";
     instruction := lit "Respond in Bengali (Bengali script). Use simple, conversational Bengali that a learner would understand.";
     aspects := lit "pronunciation (উচ্চারণ), grammar (ব্যাকরণ), and vocabulary (শব্দভাণ্ডার)" |}.

(** The keys of [language_configs], in the order of the source. *)
Definition language_keys : list str :=
  [lit "english"; lit "hindi"; lit "kannada"; lit "tamil"; lit "telugu";
   lit "malayalam"; lit "bengali"].

(** Its values, in the same order. *)
Definition language_values : list LanguageConfig :=
  [english_config; hindi_config; kannada_config; tamil_config;
   telugu_config; malayalam_config; bengali_config].

(** The dict literal [language_configs]. *)
Definition language_configs : gmap str LanguageConfig :=
  list_to_map (zip language_keys language_values).

(** ** ConversationManager *)

(** One entry of [history]: the dict with the keys role and content. *)
Record Turn := {
  role : str;
  content : str
}.

Record ConversationManager := {
  topic : str;
  lesson_content : str;
  language : str;
  history : list Turn;
  turn_count : Z;
  max_turns : Z
}.

(** What get_response returns: the dict with is_final False and a message,
    or the dict with is_final True and an assessment. *)
Inductive TurnResult :=
| Message (assistant_message : str)
| Assessment (assessment : JSON).

Definition is_final (r : TurnResult) : bool :=
  match r with
  | Message _ => false
  | Assessment _ => true
  end.

(** The dict returned when the text holds no brace pair or the decoded
    value lacks a required field. *)
Definition fallback_assessment : JSON :=
  JDict
    [(lit "score", JInt 85);
     (lit "stars", JInt 4);
     (lit "message", JStr (lit "Great job! You completed the practice session."));
     (lit "what_you_did_well",
      JStr (lit "You engaged well in the conversation and showed good understanding of the topic."));
     (lit "improvement_tip",
      JDict
        [(lit "what_they_said", JStr (lit "Your responses"));
         (lit "better_way", JStr (lit "More natural phrasing with complete sentences"));
         (lit "explanation", JStr (lit "Practice using full, polite sentences in conversation"))])].

(** The dict returned by the except branch. *)
Definition except_assessment : JSON :=
  JDict
    [(lit "score", JInt 80);
     (lit "stars", JInt 4);
     (lit "message", JStr (lit "Well done! You completed the practice session."));
     (lit "what_you_did_well",
      JStr (lit "You participated actively and showed effort in practicing."));
     (lit "improvement_tip",
      JDict
        [(lit "what_they_said", JStr (lit "Your conversation"));
         (lit "better_way", JStr (lit "More detailed responses"));
         (lit "explanation", JStr (lit "Try to elaborate more on your answers"))])].

Definition required_fields : list str :=
  [lit "score"; lit "stars"; lit "message"; lit "what_you_did_well"; lit "improvement_tip"].

(** [field in v] for a string [field]: a key of a dict, an item of a list, a
    substring of a string; on any other value the test raises TypeError. *)
Definition py_in (field : str) (v : JSON) : option bool :=
  match v with
  | JDict d => Some (dict_has field d)
  | JList l =>
    Some (existsb (fun x => match x with JStr s => Str.eqb s field | _ => false end) l)
  | JStr s => Some (contains field s)
  | _ => None
  end.

(** [all(...)] over tests made one after the other: it stops at the first
    one that is false or raises. *)
Fixpoint py_all (tests : list (option bool)) : option bool :=
  match tests with
  | [] => Some true
  | None :: _ => None
  | Some false :: _ => Some false
  | Some true :: rest => py_all rest
  end.

(** The fence markers are removed and the text is trimmed. *)
Definition unfence (assessment_text : str) : str :=
  strip (replace (lit "```") [] (replace (lit "```json") [] assessment_text)).

(** [assessment_text[json_start:json_end]] *)
Definition json_candidate (assessment_text : str) : option str :=
  json_start ← index (lit "{") assessment_text;
  json_end ← (fun i => S i) <$> rindex (lit "}") assessment_text;
  Some (slice assessment_text json_start json_end).

Section Manager.

Context `{Python}.

(** [ConversationManager.__init__] *)
Definition init (topic lesson_content language : str) : ConversationManager :=
  {| topic := topic;
     lesson_content := lesson_content;
     language := str_lower language;
     history := [];
     turn_count := 0;
     max_turns := 10 |}.

(** The [config] of get_system_prompt:
    [language_configs.get(self.language, language_configs['english'])]. *)
Definition config (self : ConversationManager) : LanguageConfig :=
  default (default english_config (language_configs !! lit "english"))
          (language_configs !! language self).

(** [ConversationManager.add_message] *)
Definition add_message (role content : str) (self : ConversationManager)
  : ConversationManager :=
  let appended :=
    {| topic := topic self;
       lesson_content := lesson_content self;
       language := language self;
       history := history self ++ [{| role := role; content := content |}];
       turn_count := turn_count self;
       max_turns := max_turns self |} in
  if Str.eqb role (lit "user") then
    {| topic := topic appended;
       lesson_content := lesson_content appended;
       language := language appended;
       history := history appended;
       turn_count := (turn_count appended + 1)%Z;
       max_turns := max_turns appended |}
  else appended.

(** The body of the try block of get_response.  [assessment_response] is the
    text of the second model call, [None] when the call or reading its text
    raised; the result is [None] when the block raises. *)
Definition try_assessment (assessment_response : option str) : option JSON :=
  text ← assessment_response;
  let assessment_text := unfence (strip text) in
  if contains (lit "{") assessment_text && contains (lit "}") assessment_text then
    json_str ← json_candidate assessment_text;
    assessment ← json_loads json_str;
    present ← py_all (map (fun field => py_in field assessment) required_fields);
    if present : bool then Some assessment else Some fallback_assessment
  else Some fallback_assessment.

(** The try statement of get_response: the assessment that is returned. *)
Definition final_assessment (assessment_response : option str) : JSON :=
  default except_assessment (try_assessment assessment_response).

(** [ConversationManager.get_response].  [response] and
    [assessment_response] are the texts of the two model calls, [None] for a
    call that raised.  The manager is changed in place, so it is returned in
    every case; the second component is [None] when the call raised. *)
Definition get_response (self : ConversationManager) (user_message : str)
    (response assessment_response : option str)
  : ConversationManager * option TurnResult :=
  let self := add_message (lit "user") user_message self in
  match response with
  | None => (self, None)
  | Some text =>
    let assistant_message := strip text in
    let self := add_message (lit "assistant") assistant_message self in
    let is_final := (turn_count self >=? max_turns self)%Z in
    if is_final
    then (self, Some (Assessment (final_assessment assessment_response)))
    else (self, Some (Message assistant_message))
  end.

(** ** The registry and the endpoints *)

(** The body of /start_session is answered with status success, or with
    status error and code 500. *)
Inductive StartResponse :=
| StartSuccess (session_id initial_message : str) (audio : option str)
| StartError.

(** /send_message is answered with the error Session not found, with status
    success, or with the error of a raised exception. *)
Inductive SendResponse :=
| SendNotFound
| SendSuccess (response : TurnResult) (audio : option str) (turn_count max_turns : Z)
| SendError.

(** /end_session has one answer, status success. *)
Inductive EndResponse :=
| EndSuccess.

(** The registration of start_session:
    [conversations[session_id] = ConversationManager(topic, lesson_content, language)]. *)
Definition create (conversations : gmap str ConversationManager)
    (session_id topic lesson_content language : str)
  : gmap str ConversationManager :=
  <[session_id := init topic lesson_content language]> conversations.

(** [start_session].  [topic], [lesson_content] and [language] are [None]
    when the request body lacks the key; [audio] is what text_to_speech
    gives, [None] when synthesis failed. *)
Definition start_session (conversations : gmap str ConversationManager)
    (session_id : str) (topic lesson_content language : option str)
    (response assessment_response audio : option str)
  : gmap str ConversationManager * StartResponse :=
  let topic := default (lit "Ordering at a Café") topic in
  let lesson_content :=
    default (lit "Basic café ordering phrases and polite requests") lesson_content in
  let language := default (lit "english") language in
  let conversations := create conversations session_id topic lesson_content language in
  let '(manager, initial_response) :=
    get_response (init topic lesson_content language)
      (lit "Hello, I'm ready to practice!") response assessment_response in
  let conversations := <[session_id := manager]> conversations in
  match initial_response with
  | Some (Message initial_message) =>
    (conversations, StartSuccess session_id initial_message audio)
  | Some (Assessment _) => (conversations, StartError)
  | None => (conversations, StartError)
  end.

(** [send_message] *)
Definition send_message (conversations : gmap str ConversationManager)
    (session_id user_message : str)
    (response assessment_response audio : option str)
  : gmap str ConversationManager * SendResponse :=
  match conversations !! session_id with
  | None => (conversations, SendNotFound)
  | Some conversation =>
    let '(conversation, result) :=
      get_response conversation user_message response assessment_response in
    let conversations := <[session_id := conversation]> conversations in
    match result with
    | None => (conversations, SendError)
    | Some response =>
      (conversations,
       SendSuccess response (if is_final response then None else audio)
         (turn_count conversation) (max_turns conversation))
    end
  end.

(** [end_session] *)
Definition end_session (conversations : gmap str ConversationManager) (session_id : str)
  : gmap str ConversationManager * EndResponse :=
  ((if bool_decide (is_Some (conversations !! session_id))
    then delete session_id conversations
    else conversations),
   EndSuccess).

End Manager.

(** ** Runs of operations *)

(** One call of get_response: the user message and the texts of the two
    model calls. *)
Record Call := {
  call_message : str;
  call_response : option str;
  call_assessment_response : option str
}.

(** What can be done to a manager: a direct add_message, or get_response. *)
Inductive Op :=
| OpAddMessage (role content : str)
| OpGetResponse (call : Call).

Section Runs.

Context `{Python}.

Definition respond (self : ConversationManager) (c : Call)
  : ConversationManager * option TurnResult :=
  get_response self (call_message c) (call_response c) (call_assessment_response c).

(** Successive calls of get_response on one manager, with what each
    returned. *)
Fixpoint converse (self : ConversationManager) (calls : list Call)
  : ConversationManager * list (option TurnResult) :=
  match calls with
  | [] => (self, [])
  | c :: rest =>
    let '(self', r) := respond self c in
    let '(final, rs) := converse self' rest in
    (final, r :: rs)
  end.

Definition apply_op (self : ConversationManager) (o : Op) : ConversationManager :=
  match o with
  | OpAddMessage role content => add_message role content self
  | OpGetResponse c => (respond self c).1
  end.

Definition run (ops : list Op) (self : ConversationManager) : ConversationManager :=
  foldl apply_op self ops.

End Runs.

(** The number of entries of a history whose role is user. *)
Definition user_turns (h : list Turn) : Z :=
  Z.of_nat (length (filter (fun t => role t = lit "user") h)).

(** ** The Assessment of the specification *)

(** [v[k]] when [v] is a dict that has the key. *)
Definition field (k : str) (v : JSON) : option JSON :=
  match v with
  | JDict d => dict_get k d
  | _ => None
  end.

Definition is_text (v : option JSON) : bool :=
  match v with
  | Some (JStr _) => true
  | _ => false
  end.

Definition int_between (lo hi : Z) (v : option JSON) : bool :=
  match v with
  | Some (JInt z) => (lo <=? z)%Z && (z <=? hi)%Z
  | _ => false
  end.

(** The Assessment of the specification, in its words: score an integer from
    0 to 100, stars an integer from 1 to 5, message and what_you_did_well
    texts, improvement_tip with the texts what_they_said, better_way and
    explanation. *)
Definition structurally_valid (v : JSON) : bool :=
  int_between 0 100 (field (lit "score") v)
  && int_between 1 5 (field (lit "stars") v)
  && is_text (field (lit "message") v)
  && is_text (field (lit "what_you_did_well") v)
  && match field (lit "improvement_tip") v with
     | Some tip =>
       is_text (field (lit "what_they_said") tip)
       && is_text (field (lit "better_way") tip)
       && is_text (field (lit "explanation") tip)
     | None => false
     end.

(** ** The choice of the model at start-up *)

(** What [genai.list_models()] yields for one model. *)
Record ListedModel := {
  listed_name : str;
  supported_generation_methods : list str
}.

(** [available_models] after the listing loop.  [listed] is what the
    iteration yielded before it ended or raised: the names appended by then
    stay in the list. *)
Definition available_models (listed : list ListedModel) : list str :=
  map (fun m => replace (lit "models/") [] (listed_name m))
    (filter (fun m => lit "generateContent" ∈ supported_generation_methods m) listed).

Definition default_model_options : list str :=
  [lit "gemini-1.5-flash"; lit "gemini-1.5-pro"; lit "gemini-pro"; lit "gemini-1.0-pro"].

(** [model_options] after [if available_models: ...]. *)
Definition model_options (listed : list ListedModel) : list str :=
  match available_models listed with
  | [] => default_model_options
  | available => take 3 available ++ default_model_options
  end.

(** What one turn of the selection loop meets: [GenerativeModel(model_name)]
    raises, or it returns and the test call raises, or both return. *)
Inductive Attempt :=
| ConstructorRaised
| TestRaised
| Worked.

(** The selection loop.  [attempt i name] is what the turn number [i] meets
    with [name]; [model] is the name the variable [model] was last built
    from, [None] while it is [None].  The assignment to [model] comes before
    the test call, so a test call that raises leaves [model] assigned. *)
Fixpoint select_from (attempt : nat -> str -> Attempt) (i : nat)
    (model : option str) (options : list str) : option str :=
  match options with
  | [] => model
  | model_name :: rest =>
    match attempt i model_name with
    | ConstructorRaised => select_from attempt (S i) model rest
    | TestRaised => select_from attempt (S i) (Some model_name) rest
    | Worked => Some model_name
    end
  end.

(** The model the module ends up with; [None] is the ValueError of
    [if model is None]. *)
Definition startup_model (listed : list ListedModel) (attempt : nat -> str -> Attempt)
  : option str :=
  select_from attempt 0 None (model_options listed).

(** ** Language codes of the speech services *)

(** [tts_lang_map] of text_to_speech. *)
Definition tts_lang_map : gmap str str :=
  list_to_map
    [(lit "english", lit "en"); (lit "hindi", lit "hi"); (lit "kannada", lit "kn");
     (lit "tamil", lit "ta"); (lit "telugu", lit "te"); (lit "malayalam", lit "ml");
     (lit "bengali", lit "bn")].

(** [lang_code = tts_lang_map.get(language, 'en')] *)
Definition lang_code (language : str) : str :=
  default (lit "en") (tts_lang_map !! language).

(** [text_to_speech].  [synthesize text lang_code] stands for what follows
    the lookup (gTTS, the temporary file, base64), [None] when a step of it
    raised; the function then returns [None]. *)
Definition text_to_speech (synthesize : str -> str -> option str) (text language : str)
  : option str :=
  synthesize text (lang_code language).

(** [language_map] of transcribe_audio. *)
Definition language_map : gmap str str :=
  list_to_map
    [(lit "english", lit "en-US"); (lit "hindi", lit "hi-IN"); (lit "kannada", lit "kn-IN");
     (lit "tamil", lit "ta-IN"); (lit "telugu", lit "te-IN"); (lit "malayalam", lit "ml-IN");
     (lit "bengali", lit "bn-IN")].

(** /transcribe_audio is answered with the transcript and its confidence,
    with the error No speech detected, or with the error of a raised
    exception. *)
Inductive TranscribeResponse (C : Type) :=
| TranscribeSuccess (transcript : str) (confidence : C)
| TranscribeNoSpeech
| TranscribeError.

Arguments TranscribeSuccess {C} transcript confidence.
Arguments TranscribeNoSpeech {C}.
Arguments TranscribeError {C}.

Section Transcribe.

Context `{Python}.

(** [language_code = language_map.get(language.lower(), 'en-US')] *)
Definition language_code (language : str) : str :=
  default (lit "en-US") (language_map !! str_lower language).

(** [transcribe_audio].  [audio_content] is the decoded audio, [None] when
    reading or decoding it raised; [language] is [None] when the body lacks
    the key; [recognize language_code audio] is the list of results of the
    recognizer, each one a list of alternatives, [None] when the call
    raised.  [B] stands for the audio bytes and [C] for the confidence. *)
Definition transcribe_audio {B C : Type} (audio_content : option B)
    (language : option str)
    (recognize : str -> B -> option (list (list (str * C))))
  : TranscribeResponse C :=
  match audio_content with
  | None => TranscribeError
  | Some audio =>
    let language := default (lit "english") language in
    match recognize (language_code language) audio with
    | None => TranscribeError
    | Some [] => TranscribeNoSpeech
    | Some ([] :: _) => TranscribeError
    | Some (((transcript, confidence) :: _) :: _) =>
      TranscribeSuccess transcript confidence
    end
  end.

End Transcribe.

(** ** Requests to the session endpoints *)

Inductive Request :=
| StartSession (session_id : str) (topic lesson_content language : option str)
    (response assessment_response audio : option str)
| SendMessage (session_id user_message : str)
    (response assessment_response audio : option str)
| EndSession (session_id : str).

Definition request_session (r : Request) : str :=
  match r with
  | StartSession session_id _ _ _ _ _ _ => session_id
  | SendMessage session_id _ _ _ _ => session_id
  | EndSession session_id => session_id
  end.

Section Serving.

Context `{Python}.

(** The registry after a request. *)
Definition serve (conversations : gmap str ConversationManager) (r : Request)
  : gmap str ConversationManager :=
  match r with
  | StartSession session_id topic lesson_content language response assessment_response audio =>
    (start_session conversations session_id topic lesson_content language
       response assessment_response audio).1
  | SendMessage session_id user_message response assessment_response audio =>
    (send_message conversations session_id user_message
       response assessment_response audio).1
  | EndSession session_id => (end_session conversations session_id).1
  end.

(** The registry after a list of requests, the module's [conversations]
    being empty at first. *)
Definition serve_all (requests : list Request) : gmap str ConversationManager :=
  foldl serve ∅ requests.


End Serving.

(** ** What holds of a registered manager *)

(** The user turn /start_session submits. *)
Definition greeting : Turn :=
  {| role := lit "user"; content := lit "Hello, I'm ready to practice!" |}.

(** A manager as the endpoints leave it: ten turns at most before the
    assessment, the greeting first, the user turns counted, and no more
    assistant turns than user turns. *)
Definition started (m : ConversationManager) : Prop :=
  max_turns m = 10%Z
  /\ head (history m) = Some greeting
  /\ turn_count m = user_turns (history m)
  /\ (1 <= turn_count m)%Z
  /\ (turn_count m <= Z.of_nat (length (history m)) <= 2 * turn_count m)%Z.

(** ** The prompts *)

(** [str.upper] on the names of the language table, none of which has a
    cased letter outside ASCII. *)
Definition ascii_upper (c : N) : N := if (97 <=? c) && (c <=? 122) then c - 32 else c.

Definition name_upper (name : str) : str := map ascii_upper name.

(** An int in an f-string: its decimal digits, after a minus sign when it is
    negative. *)
Definition str_of_int (z : Z) : str := bytes_of (NilZero.string_of_int (Z.to_int z)).

(** The lines of a text, a line feed between one and the next. *)
Fixpoint join_lines (lines : list str) : str :=
  match lines with
  | [] => []
  | line :: rest =>
    match rest with
    | [] => line
    | _ => line ++ 10 :: join_lines rest
    end
  end.

(** [ConversationManager.get_system_prompt] *)
Definition get_system_prompt (self : ConversationManager) : str :=
  let c := config self in
  join_lines
    [
     lit "You are a " ++ name c
       ++ lit " language learning companion helping a student practice what they've learned.";
     [];
     lit "Topic: " ++ topic self;
     lit "Lesson Content: " ++ lesson_content self;
     lit "Language: " ++ name c;
     [];
     lit "IMPORTANT: " ++ instruction c;
     [];
     lit "Your role:";
     lit "1. Have a natural conversation with the student about the topic IN "
       ++ name_upper (name c);
     lit "2. Ask questions to assess their understanding";
     lit "3. Correct mistakes gently and provide better alternatives";
     lit "4. Track " ++ aspects c ++ lit " usage";
     lit "5. After " ++ str_of_int (max_turns self)
       ++ lit " exchanges, provide a final score and detailed feedback";
     [];
     lit "Conversation guidelines:";
     lit "- Keep responses conversational and encouraging";
     lit "- Ask follow-up questions to assess understanding";
     lit "- Note any grammatical errors or pronunciation issues";
     lit "- Be supportive and constructive";
     lit "- Use simple, clear language appropriate for a learner";
     [];
     lit "Current turn: " ++ str_of_int (turn_count self) ++ lit "/"
       ++ str_of_int (max_turns self);
     [];
     lit "If this is the final turn, provide a JSON response with:";
     lit "{";
     dq "    'final_assessment': true,";
     dq "    'score': <number out of 100>,";
     dq "    'stars': <number 1-5>,";
     dq "    'message': '<encouraging message IN " ++ name_upper (name c) ++ dq ">',";
     dq "    'what_you_did_well': '<specific praise IN " ++ name_upper (name c) ++ dq ">',";
     dq "    'improvement_tip': {";
     dq "        'what_they_said': '<exact problematic phrase>',";
     dq "        'better_way': '<corrected phrase IN " ++ name_upper (name c) ++ dq ">',";
     dq "        'explanation': '<why this is better IN " ++ name_upper (name c) ++ dq ">'";
     lit "    },";
     dq "    'detailed_feedback': '<comprehensive feedback IN " ++ name_upper (name c)
       ++ dq ">'";
     lit "}";
     [];
     lit "Otherwise, respond naturally IN " ++ name_upper (name c)
       ++ lit " to continue the conversation."
    ].

(** The loop of get_response over [self.history]: a line for each entry, the
    role, a colon and the content. *)
Definition history_lines (entries : list Turn) : str :=
  flat_map (fun msg => role msg ++ lit ": " ++ content msg ++ [10]) entries.

(** The [context] of get_response, for the manager as it is after the user
    message was appended. *)
Definition context (self : ConversationManager) : str :=
  get_system_prompt self ++ [10; 10] ++ lit "Conversation history:" ++ [10]
  ++ history_lines (history self).

(** json.dumps with ensure_ascii, as the assessment prompt uses it. *)
Module Encoder.

Definition hexdigit (d : N) : N := if d <? 10 then 48 + d else 87 + d.

(** A backslash, u and the four hex digits of [n], which is below 65536. *)
Definition u_escape (n : N) : str :=
  [92; 117; hexdigit (n / 4096 mod 16); hexdigit (n / 256 mod 16);
   hexdigit (n / 16 mod 16); hexdigit (n mod 16)].

(** What one code point is written as: the two-letter escapes, the printable
    ASCII code points as they are, any other code point as one u escape or,
    from 65536 on, as the two u escapes of its surrogates. *)
Definition escape_char (c : N) : str :=
  if c =? 34 then [92; 34]
  else if c =? 92 then [92; 92]
  else if c =? 10 then [92; 110]
  else if c =? 13 then [92; 114]
  else if c =? 9 then [92; 116]
  else if c =? 12 then [92; 102]
  else if c =? 8 then [92; 98]
  else if (32 <=? c) && (c <=? 126) then [c]
  else if c <? 65536 then u_escape c
  else
    let n := c - 65536 in
    u_escape (N.lor 0xD800 (N.land (N.shiftr n 10) 0x3FF))
    ++ u_escape (N.lor 0xDC00 (N.land n 0x3FF)).

(** A string between its quotes. *)
Definition encode_string (s : str) : str := 34 :: flat_map escape_char s ++ [34].

(** One entry of the history inside the list, with indent 2. *)
Definition dumps_turn (t : Turn) : str :=
  lit "{" ++ [10] ++ lit "    " ++ dq "'role': " ++ encode_string (role t)
  ++ lit "," ++ [10] ++ lit "    " ++ dq "'content': " ++ encode_string (content t)
  ++ [10] ++ lit "  }".

Fixpoint dumps_items (h : list Turn) : str :=
  match h with
  | [] => []
  | t :: rest =>
    dumps_turn t
    ++ match rest with
       | [] => []
       | _ => lit "," ++ [10] ++ lit "  " ++ dumps_items rest
       end
  end.

(** [json.dumps(h, indent=2)] for a list of history entries. *)
Definition dumps (h : list Turn) : str :=
  match h with
  | [] => lit "[]"
  | _ => lit "[" ++ [10] ++ lit "  " ++ dumps_items h ++ [10] ++ lit "]"
  end.

End Encoder.

(** [l[-n:]] for a positive [n]: the last [n] entries, all of them when
    there are fewer. *)
Definition last_entries {A : Type} (n : nat) (l : list A) : list A :=
  drop (length l - n) l.

(** The [assessment_prompt] of get_response, for the manager as it is after
    the assistant message was appended. *)
Definition assessment_prompt (self : ConversationManager) : str :=
  join_lines
    [
     lit "Based on this conversation, provide a final assessment as ONLY valid JSON (no markdown, no backticks, no preamble):";
     [];
     lit "Conversation:";
     Encoder.dumps (last_entries 20 (history self));
     [];
     lit "Return ONLY this JSON structure, nothing else:";
     lit "{";
     dq "    'score': 85,";
     dq "    'stars': 4,";
     dq "    'message': 'Great job!',";
     dq "    'what_you_did_well': 'Your pronunciation was clear and you used polite language.',";
     dq "    'improvement_tip': {";
     dq "        'what_they_said': 'I want hot',";
     dq "        'better_way': 'I would like it hot, please',";
     dq "        'explanation': 'Adding "
       ++ lit "'I would like' and 'please' sounds more polite and natural" ++ dq "'";
     lit "    }";
     lit "}"
    ].

(** A history entry as json.loads gives it back. *)
Definition turn_json (t : Turn) : JSON :=
  JDict [(lit "role", JStr (role t)); (lit "content", JStr (content t))].

(** ** Managers the model cannot tell apart *)

(** Two managers that give get_response the same context now and after the
    same further calls: they agree on everything but the history, and their
    histories are written as the same lines. *)
Definition alike (m1 m2 : ConversationManager) : Prop :=
  topic m1 = topic m2
  /\ lesson_content m1 = lesson_content m2
  /\ language m1 = language m2
  /\ turn_count m1 = turn_count m2
  /\ max_turns m1 = max_turns m2
  /\ history_lines (history m1) = history_lines (history m2).

(** A code point a well-formed text can hold: not a surrogate, and within
    the range of Unicode. *)
Definition scalar_value (c : N) : bool :=
  (c <? 0xD800) || ((0xDFFF <? c) && (c <? 0x110000)).

(** ** The star row of the test page *)

(** [String.prototype.repeat] with an integer count: a negative count is a
    RangeError, here [None]. *)
Definition js_repeat (s : str) (count : Z) : option str :=
  if (count <? 0)%Z then None else Some (concat (replicate (Z.to_nat count) s)).

(** The [stars] of displayFinalAssessment, for an integer [assessment.stars]:
    that many filled stars, then [5 - assessment.stars] hollow ones. *)
Definition star_row (stars : Z) : option str :=
  filled ← js_repeat (lit "⭐") stars;
  hollow ← js_repeat (lit "☆") (5 - stars)%Z;
  Some (filled ++ hollow).

(** The texts of a history have no surrogate and no code point beyond
    Unicode. *)
Definition well_formed_history (h : list Turn) : bool :=
  forallb (fun e => forallb scalar_value (role e) && forallb scalar_value (content e)) h.

(** An attempt function: the constructor raises for the first option, the
    test call raises for the second, the third works. *)
Definition third_option_works (i : nat) (model_name : str) : Attempt :=
  match i with
  | 0%nat => ConstructorRaised
  | 1%nat => TestRaised
  | _ => Worked
  end.

(** An attempt function: only the constructor of the second option returns,
    and its test call raises. *)
Definition second_option_built (i : nat) (model_name : str) : Attempt :=
  match i with
  | 1%nat => TestRaised
  | _ => ConstructorRaised
  end.

(** An attempt function: every constructor raises. *)
Definition no_option_built (i : nat) (model_name : str) : Attempt := ConstructorRaised.

(** A synthesizer that answers with the language code it was given. *)
Definition echo_code (text lang : str) : option str := Some lang.

(** A listing with one model that generates content and one that does not. *)
Definition sample_listing : list ListedModel :=
  [{| listed_name := lit "models/embedding-001";
      supported_generation_methods := [lit "embedContent"] |};
   {| listed_name := lit "models/gemini-2.0-flash";
      supported_generation_methods := [lit "generateContent"; lit "countTokens"] |}].

(** ** Sample data *)

(** A call whose first model call answers and whose second one raises. *)
Definition sample_call : Call :=
  {| call_message := lit "Hi";
     call_response := Some (lit " Hello! What would you like to order? ");
     call_assessment_response := None |}.

(** The members of an assessment object as the model may write them. *)
Definition sample_members : str :=
  dq "'score': 90, 'stars': 5, 'message': 'Good', 'what_you_did_well': 'Greeting', 'improvement_tip': {'what_they_said': 'a', 'better_way': 'b', 'explanation': 'c'}".

(** The dict they decode to. *)
Definition sample_assessment : list (str * JSON) :=
  [(lit "score", JInt 90);
   (lit "stars", JInt 5);
   (lit "message", JStr (lit "Good"));
   (lit "what_you_did_well", JStr (lit "Greeting"));
   (lit "improvement_tip",
    JDict
      [(lit "what_they_said", JStr (lit "a"));
       (lit "better_way", JStr (lit "b"));
       (lit "explanation", JStr (lit "c"))])].

(** An object with the five keys and no acceptable value. *)
Definition unchecked_object : str :=
  dq "{'score': 999, 'stars': 0, 'message': null, 'what_you_did_well': 7, 'improvement_tip': []}".

(** An object whose message holds fence markers. *)
Definition fenced_members : str :=
  dq "'score': 90, 'stars': 5, 'message': 'Say ```hola```', 'what_you_did_well': 'w', 'improvement_tip': {}".

(** ** Proof steps *)

(** A code point is not in a given text. *)
Ltac absent :=
  repeat (rewrite not_elem_of_cons; split; [done|]); apply not_elem_of_nil.

(** * Properties *)

(** ** The models run as the interpreter does *)

Example lit_hindi :
  lit "Hindi (हिंदी)" = [72;105;110;100;105;32;40;2361;2367;2306;2342;2368;41].
Proof. reflexivity. Qed.

Example brace_and_fence_code_points :
  lit "{" = [123] /\ lit "}" = [125] /\ lit "```" = [96; 96; 96].
Proof. by split_and!. Qed.

Example replace_overlap : replace (lit "aa") (lit "b") (lit "aaaa") = lit "bb".
Proof. reflexivity. Qed.

Example slice_inverted : slice (lit "} {") 2 1 = [].
Proof. reflexivity. Qed.

Example strip_unicode : strip [32; 28; 97; 32; 133; 160] = [97].
Proof. reflexivity. Qed.

Example decode_duplicate_key :
  Decoder.decode (dq "{'a':1,'a':2,'b':3}")
  = Some (JDict [(lit "a", JInt 2); (lit "b", JInt 3)]).
Proof. reflexivity. Qed.

Example decode_leading_zero : Decoder.decode (dq "{'a': 01}") = None.
Proof. reflexivity. Qed.

Example decode_surrogate_pair :
  Decoder.decode (dq "{'s':'\ud83d\ude00 \u00e9\n'}")
  = Some (JDict [(lit "s", JStr [128512; 32; 233; 10])]).
Proof. reflexivity. Qed.

(** ** add_message and get_response *)

Section ManagerFacts.

Context `{Python}.

Implicit Types (self : ConversationManager) (role content text : str).

Lemma add_message_history role content self :
  history (add_message role content self)
  = history self ++ [{| role := role; content := content |}].
Proof. unfold add_message. by destruct (Str.eqb role (lit "user")). Qed.

Lemma add_message_turn_count role content self :
  turn_count (add_message role content self)
  = (turn_count self + (if Str.eqb role (lit "user") then 1 else 0))%Z.
Proof. unfold add_message. destruct (Str.eqb role (lit "user")); simpl; lia. Qed.

Lemma add_message_max_turns role content self :
  max_turns (add_message role content self) = max_turns self.
Proof. unfold add_message. by destruct (Str.eqb role (lit "user")). Qed.

Lemma add_message_language role content self :
  language (add_message role content self) = language self.
Proof. unfold add_message. by destruct (Str.eqb role (lit "user")). Qed.

Lemma user_is_user : Str.eqb (lit "user") (lit "user") = true.
Proof. reflexivity. Qed.

Lemma assistant_is_not_user : Str.eqb (lit "assistant") (lit "user") = false.
Proof. reflexivity. Qed.

(** The manager get_response leaves behind. *)
Lemma get_response_manager self user_message response assessment_response :
  (get_response self user_message response assessment_response).1
  = match response with
    | None => add_message (lit "user") user_message self
    | Some text =>
      add_message (lit "assistant") (strip text)
        (add_message (lit "user") user_message self)
    end.
Proof.
  unfold get_response. destruct response as [text|]; [|done].
  by case (Z.geb _ _).
Qed.

Lemma get_response_turn_count self user_message response assessment_response :
  turn_count (get_response self user_message response assessment_response).1
  = (turn_count self + 1)%Z.
Proof.
  rewrite get_response_manager. destruct response;
    rewrite ?add_message_turn_count, ?user_is_user, ?assistant_is_not_user; lia.
Qed.

Lemma get_response_max_turns self user_message response assessment_response :
  max_turns (get_response self user_message response assessment_response).1
  = max_turns self.
Proof.
  rewrite get_response_manager. destruct response;
    by rewrite ?add_message_max_turns.
Qed.

(** What get_response returns. *)
Lemma get_response_result self user_message response assessment_response :
  (get_response self user_message response assessment_response).2
  = match response with
    | None => None
    | Some text =>
      if (max_turns self <=? turn_count self + 1)%Z
      then Some (Assessment (final_assessment assessment_response))
      else Some (Message (strip text))
    end.
Proof.
  unfold get_response. destruct response as [text|]; [|done].
  cbv zeta. rewrite Z.geb_leb.
  rewrite !add_message_max_turns, !add_message_turn_count,
    user_is_user, assistant_is_not_user, Z.add_0_r.
  by case (Z.leb _ _).
Qed.

End ManagerFacts.

(** ** Turn counting (C2, C7, C10) *)

Section TurnCount.

Context `{Python}.

(** C2. Every get_response call adds exactly 1 to turn_count, whatever the
    two model calls do; so does every accepted /send_message, and a refused
    one changes nothing.  Of the two appends the user one adds 1 and the
    assistant one adds 0, and no add_message, with any role, makes turn_count
    smaller. *)
Theorem C2_turn_count_plus_one :
  forall (self : ConversationManager) (conversations : gmap str ConversationManager)
         (session_id user_message role content : str)
         (response assessment_response audio : option str),
    turn_count (get_response self user_message response assessment_response).1
    = (turn_count self + 1)%Z
    /\ turn_count
         <$> ((send_message conversations session_id user_message
                 response assessment_response audio).1 !! session_id)
       = (fun c => (turn_count c + 1)%Z) <$> (conversations !! session_id)
    /\ turn_count (add_message (lit "user") content self) = (turn_count self + 1)%Z
    /\ turn_count (add_message (lit "assistant") content self) = turn_count self
    /\ (turn_count self <= turn_count (add_message role content self))%Z.
Proof.
  intros self conversations session_id user_message role content
    response assessment_response audio.
  split_and!.
  - apply get_response_turn_count.
  - unfold send_message.
    destruct (conversations !! session_id) as [c|] eqn:Hc; simpl.
    + pose proof (get_response_turn_count c user_message response assessment_response)
        as Htc.
      destruct (get_response c user_message response assessment_response)
        as [c' [r|]]; simpl in *; rewrite lookup_insert_eq; simpl; by rewrite Htc.
    + by rewrite Hc.
  - rewrite add_message_turn_count, user_is_user. lia.
  - rewrite add_message_turn_count, assistant_is_not_user. lia.
  - rewrite add_message_turn_count. destruct (Str.eqb role (lit "user")); lia.
Qed.

(** C7. When the first model call raises, get_response raises with the user
    turn already appended and counted and no assistant turn added, and
    /send_message answers with the error while the registry keeps the
    manager in that state. *)
Theorem C7_failed_call_keeps_user_turn :
  forall (conversations : gmap str ConversationManager) (self : ConversationManager)
         (session_id user_message : str) (assessment_response audio : option str),
    conversations !! session_id = Some self ->
    let after := (get_response self user_message None assessment_response).1 in
    (get_response self user_message None assessment_response).2 = None
    /\ history after
       = history self ++ [{| role := lit "user"; content := user_message |}]
    /\ turn_count after = (turn_count self + 1)%Z
    /\ send_message conversations session_id user_message None assessment_response audio
       = (<[session_id := after]> conversations, SendError).
Proof.
  intros conversations self session_id user_message assessment_response audio Hin after.
  subst after. split_and!.
  - done.
  - by rewrite get_response_manager, add_message_history.
  - apply get_response_turn_count.
  - unfold send_message. by rewrite Hin.
Qed.

(** The history grows at its end only. *)
Lemma apply_op_prefix (self : ConversationManager) (o : Op) :
  history self `prefix_of` history (apply_op self o).
Proof.
  destruct o as [role content|c]; simpl.
  - rewrite add_message_history. by apply prefix_app_r.
  - unfold respond. rewrite get_response_manager.
    destruct (call_response c);
      rewrite !add_message_history, <- ?app_assoc; by apply prefix_app_r.
Qed.

Lemma run_prefix (ops : list Op) (self : ConversationManager) :
  history self `prefix_of` history (run ops self).
Proof.
  revert self. induction ops as [|o ops IH]; intros self; [done|].
  unfold run. simpl. etrans; [apply apply_op_prefix | apply IH].
Qed.

Lemma user_turns_app (h1 h2 : list Turn) :
  user_turns (h1 ++ h2) = (user_turns h1 + user_turns h2)%Z.
Proof. unfold user_turns. rewrite filter_app, length_app. lia. Qed.

Lemma user_turns_one (role content : str) :
  user_turns [{| role := role; content := content |}]
  = (if Str.eqb role (lit "user") then 1 else 0)%Z.
Proof.
  unfold user_turns, Str.eqb. rewrite filter_cons. simpl.
  destruct (decide (role = lit "user")) as [Hr|Hr].
  - by rewrite bool_decide_eq_true_2.
  - by rewrite bool_decide_eq_false_2.
Qed.

Lemma add_message_counts (role content : str) (self : ConversationManager) :
  turn_count self = user_turns (history self) ->
  turn_count (add_message role content self)
  = user_turns (history (add_message role content self)).
Proof.
  intros Hinv.
  rewrite add_message_turn_count, add_message_history, user_turns_app, user_turns_one.
  lia.
Qed.

Lemma apply_op_counts (self : ConversationManager) (o : Op) :
  turn_count self = user_turns (history self) ->
  turn_count (apply_op self o) = user_turns (history (apply_op self o)).
Proof.
  intros Hinv. destruct o as [role content|c]; simpl.
  - by apply add_message_counts.
  - unfold respond. rewrite get_response_manager.
    destruct (call_response c); repeat apply add_message_counts; done.
Qed.

Lemma run_counts (ops : list Op) (self : ConversationManager) :
  turn_count self = user_turns (history self) ->
  turn_count (run ops self) = user_turns (history (run ops self)).
Proof.
  revert self. induction ops as [|o ops IH]; intros self Hinv; [done|].
  unfold run. simpl. apply IH. by apply apply_op_counts.
Qed.

(** C10. After any sequence of add_message and get_response calls on a new
    manager, with any of the model calls raising, turn_count is the number of
    user entries of history; and from any manager, the history before a
    sequence of operations is a prefix of the history after it. *)
Theorem C10_turn_count_counts_user_turns :
  forall (topic lesson_content language : str) (ops : list Op)
         (self : ConversationManager),
    turn_count (run ops (init topic lesson_content language))
    = user_turns (history (run ops (init topic lesson_content language)))
    /\ history self `prefix_of` history (run ops self).
Proof.
  intros topic lesson_content language ops self. split.
  - by apply run_counts.
  - apply run_prefix.
Qed.

End TurnCount.

(** ** The registry (C6, C8) *)

Section Registry.

Context `{Python}.

Lemma end_session_delete (conversations : gmap str ConversationManager) (session_id : str) :
  (end_session conversations session_id).1 = delete session_id conversations.
Proof.
  unfold end_session. simpl. case_bool_decide as Hin; [done|].
  symmetry. apply delete_id. by rewrite eq_None_not_Some.
Qed.

(** C8. /end_session leaves no manager under the id, so that a following
    /send_message answers Session not found; it answers status success
    whether or not the id was there; on an absent id it changes nothing, and
    ending twice is ending once. *)
Theorem C8_end_session_idempotent :
  forall (conversations : gmap str ConversationManager) (session_id user_message : str)
         (response assessment_response audio : option str),
    let ended := (end_session conversations session_id).1 in
    ended !! session_id = None
    /\ (send_message ended session_id user_message response assessment_response audio).2
       = SendNotFound
    /\ (end_session conversations session_id).2 = EndSuccess
    /\ (conversations !! session_id = None -> ended = conversations)
    /\ end_session ended session_id = (ended, EndSuccess)
    /\ (forall other : str, other <> session_id -> ended !! other = conversations !! other).
Proof.
  intros conversations session_id user_message response assessment_response audio ended.
  assert (ended = delete session_id conversations) as Hended
    by apply end_session_delete.
  assert (ended !! session_id = None) as Hnone
    by (rewrite Hended; apply lookup_delete_eq).
  split_and!.
  - done.
  - unfold send_message. by rewrite Hnone.
  - done.
  - intros Habsent. rewrite Hended. by apply delete_id.
  - unfold end_session. rewrite bool_decide_eq_false_2; [done|].
    rewrite Hnone. by intros [? ?].
  - intros other Hother. rewrite Hended. by apply lookup_delete_ne.
Qed.

(** C6, as the code has it. The registration never fails: under any id,
    present or not, it stores a new manager with turn_count 0, an empty
    history and max_turns 10, in place of whatever was stored there, and
    leaves the other ids alone; /start_session then submits the greeting to
    it, so the manager it leaves registered has turn_count 1. *)
Theorem C6_create_overwrites :
  forall (conversations : gmap str ConversationManager)
         (session_id topic lesson_content language : str)
         (response assessment_response audio : option str),
    let fresh := init topic lesson_content language in
    create conversations session_id topic lesson_content language !! session_id
    = Some fresh
    /\ turn_count fresh = 0%Z
    /\ history fresh = []
    /\ max_turns fresh = 10%Z
    /\ (forall other : str, other <> session_id ->
          create conversations session_id topic lesson_content language !! other
          = conversations !! other)
    /\ exists started : ConversationManager,
         (start_session conversations session_id (Some topic) (Some lesson_content)
            (Some language) response assessment_response audio).1 !! session_id
         = Some started
         /\ turn_count started = 1%Z.
Proof.
  intros conversations session_id topic lesson_content language
    response assessment_response audio fresh.
  subst fresh. unfold create. split_and!; try done.
  - apply lookup_insert_eq.
  - intros other Hother. by apply lookup_insert_ne.
  - unfold start_session. simpl.
    pose proof (get_response_turn_count (init topic lesson_content language)
                  (lit "Hello, I'm ready to practice!") response assessment_response)
      as Htc.
    destruct (get_response _ _ response assessment_response) as [started r].
    exists started. simpl in Htc. split; [|done].
    destruct r as [[m|a]|]; simpl; apply lookup_insert_eq.
Qed.

End Registry.

(** ** The language table (C9) *)

Section Languages.

Context `{Python}.

Lemma language_configs_english : language_configs !! lit "english" = Some english_config.
Proof. by vm_compute. Qed.

Lemma config_init (topic lesson_content id : str) :
  config (init topic lesson_content id)
  = default english_config (language_configs !! str_lower id).
Proof. unfold config, init. simpl. by rewrite language_configs_english. Qed.

Lemma language_keys_lower : Forall (fun k => str_lower k = k) language_keys.
Proof.
  repeat constructor; (rewrite str_lower_ascii; [by vm_compute | by vm_compute]).
Qed.

Lemma language_configs_keys (k : str) :
  k ∉ language_keys -> language_configs !! k = None.
Proof.
  intros Hk. apply not_elem_of_list_to_map_1.
  by rewrite fst_zip by (vm_compute; lia).
Qed.

Lemma language_configs_values :
  Forall2 (fun k c => language_configs !! k = Some c) language_keys language_values.
Proof. repeat constructor; by vm_compute. Qed.

(** C9. The profile of a manager is looked up under the lower-cased
    identifier and is always there: an identifier whose lower-cased form is
    not one of the seven keys gets the English profile; two ASCII
    identifiers that differ by case only get the same profile; the seven
    keys get the seven profiles of the table, which are pairwise distinct
    and have a non-empty instruction each. *)
Theorem C9_language_lookup :
  forall (topic lesson_content id id' : str),
    (str_lower id ∉ language_keys ->
       config (init topic lesson_content id) = english_config)
    /\ (forallb is_ascii id = true -> forallb is_ascii id' = true ->
        map ascii_lower id = map ascii_lower id' ->
          config (init topic lesson_content id) = config (init topic lesson_content id'))
    /\ (forallb is_ascii id = true -> map ascii_lower id ∈ language_keys ->
          language_configs !! map ascii_lower id
          = Some (config (init topic lesson_content id)))
    /\ map (fun k => config (init topic lesson_content k)) language_keys = language_values
    /\ NoDup language_values
    /\ Forall (fun c => instruction c <> []) language_values.
Proof.
  intros topic lesson_content id id'. split_and!.
  - intros Hout. rewrite config_init. by rewrite language_configs_keys.
  - intros Hid Hid' Heq. rewrite !config_init, !str_lower_ascii by done.
    by rewrite Heq.
  - intros Hid Hin. rewrite config_init, str_lower_ascii by done.
    destruct (language_configs !! map ascii_lower id) as [c|] eqn:Hc; [done|].
    exfalso. apply (not_elem_of_list_to_map_2 _ _ Hc).
    by rewrite fst_zip by (vm_compute; lia).
  - pose proof language_keys_lower as Hlow.
    pose proof language_configs_values as Hval.
    unfold language_keys, language_values in *.
    repeat match goal with
           | Hf : Forall _ (_ :: _) |- _ => apply Forall_cons in Hf as [? Hf]
           | Hf : Forall2 _ (_ :: _) (_ :: _) |- _ =>
             apply Forall2_cons in Hf as [? Hf]
           end.
    simpl. rewrite !config_init.
    repeat match goal with
           | Hk : str_lower ?k = ?k |- _ => rewrite Hk; clear Hk
           end.
    repeat match goal with
           | Hk : language_configs !! _ = Some _ |- _ => rewrite Hk; clear Hk
           end.
    done.
  - apply (bool_decide_unpack (NoDup language_values)). by vm_compute.
  - repeat constructor; by vm_compute.
Qed.

End Languages.

(** ** Final turns (C1) *)

Section FinalTurns.

Context `{Python}.

(** What the call at position [i] of a run returns depends on the turn count
    it reaches alone. *)
Lemma converse_result (calls : list Call) :
  forall (self : ConversationManager) (i : nat) (c : Call),
    calls !! i = Some c ->
    (converse self calls).2 !! i
    = Some match call_response c with
           | None => None
           | Some text =>
             if (max_turns self <=? turn_count self + Z.of_nat i + 1)%Z
             then Some (Assessment (final_assessment (call_assessment_response c)))
             else Some (Message (strip text))
           end.
Proof.
  induction calls as [|c0 calls IH]; intros self i c Hi; [done|].
  simpl.
  pose proof (get_response_turn_count self (call_message c0) (call_response c0)
                (call_assessment_response c0)) as Htc.
  pose proof (get_response_max_turns self (call_message c0) (call_response c0)
                (call_assessment_response c0)) as Hmt.
  pose proof (get_response_result self (call_message c0) (call_response c0)
                (call_assessment_response c0)) as Hres.
  unfold respond.
  destruct (get_response self (call_message c0) (call_response c0)
              (call_assessment_response c0)) as [self' r].
  simpl in Htc, Hmt, Hres.
  specialize (IH self').
  destruct (converse self' calls) as [final rs]. simpl in *.
  destruct i as [|i].
  - simpl in Hi. injection Hi as <-. simpl. f_equal. rewrite Hres.
    by rewrite Z.add_0_r.
  - simpl in Hi. simpl. rewrite (IH i c Hi), Hmt, Htc.
    by replace (turn_count self + 1 + Z.of_nat i + 1)%Z
      with (turn_count self + Z.of_nat (S i) + 1)%Z by lia.
Qed.

(** C1, as the code has it. A get_response call whose first model call
    succeeds returns the message when the turn count it reaches is below
    max_turns and an assessment when it is max_turns or more; a call whose
    first model call raises returns nothing.  So on a new manager the call
    number k returns a message for k below 10 and an assessment for every k
    from 10 on: the state reached at turn 10 is not terminal. *)
Theorem C1_final_from_turn_ten_on :
  forall (self : ConversationManager) (user_message text topic lesson_content language : str)
         (assessment_response : option str) (calls : list Call) (i : nat) (c : Call),
    (get_response self user_message (Some text) assessment_response).2
    = Some (if (max_turns self <=? turn_count self + 1)%Z
            then Assessment (final_assessment assessment_response)
            else Message (strip text))
    /\ (get_response self user_message None assessment_response).2 = None
    /\ (calls !! i = Some c ->
        (converse (init topic lesson_content language) calls).2 !! i
        = Some match call_response c with
               | None => None
               | Some reply =>
                 if bool_decide (10 <= i + 1)%nat
                 then Some (Assessment (final_assessment (call_assessment_response c)))
                 else Some (Message (strip reply))
               end).
Proof.
  intros self user_message text topic lesson_content language
    assessment_response calls i c.
  split_and!.
  - rewrite get_response_result. by case (Z.leb _ _).
  - done.
  - intros Hi. rewrite (converse_result calls _ i c Hi). simpl.
    destruct (call_response c) as [reply|]; [|done].
    case_bool_decide as Hk.
    + by rewrite (proj2 (Z.leb_le _ _)) by lia.
    + by rewrite (proj2 (Z.leb_gt _ _)) by lia.
Qed.

End FinalTurns.

(** ** The assessment of the final turn (C3, C4) *)

Lemma contains_index (sub s : str) :
  contains sub s = true -> is_Some (index sub s).
Proof.
  induction s as [|c s IH]; simpl.
  - rewrite orb_false_r. intros ->. by eexists.
  - destruct (startswith sub (c :: s)); [by eexists|]. simpl.
    intros Hin. destruct (IH Hin) as [i ->]. by eexists.
Qed.

Lemma contains_rindex (sub s : str) :
  contains sub s = true -> is_Some (rindex sub s).
Proof.
  induction s as [|c s IH]; simpl.
  - rewrite orb_false_r. intros ->. by eexists.
  - destruct (rindex sub s) as [i|]; [by eexists|].
    destruct (startswith sub (c :: s)); [by eexists|]. simpl.
    intros Hin. by destruct (IH Hin).
Qed.

(** With both braces in the text neither index nor rindex raises. *)
Lemma json_candidate_is_Some (assessment_text : str) :
  contains (lit "{") assessment_text = true ->
  contains (lit "}") assessment_text = true ->
  is_Some (json_candidate assessment_text).
Proof.
  intros Ho Hc. unfold json_candidate.
  destruct (contains_index _ _ Ho) as [i ->].
  destruct (contains_rindex _ _ Hc) as [j ->].
  by eexists.
Qed.

(** On a dict the test of the required fields is a test of its keys. *)
Lemma py_all_dict (d : list (str * JSON)) (fields : list str) :
  py_all (map (fun f => py_in f (JDict d)) fields)
  = Some (forallb (fun f => dict_has f d) fields).
Proof.
  induction fields as [|f fields IH]; [done|].
  simpl. by destruct (dict_has f d).
Qed.

Section Assessment.

Context `{Python}.

(** C3, as the code has it. The extraction always gives an assessment, and
    it has two fixed defaults.  The one with score 85 and stars 4 is given
    when the text lacks a brace, and when the decoded dict lacks a required
    key.  The one with score 80 and stars 4 is given when the model call
    raised and when json.loads raised.  A decoded dict that has the five
    keys is given back as it is. *)
Theorem C3_two_defaults :
  forall (text : str) (d : list (str * JSON)),
    let assessment_text := unfence (strip text) in
    final_assessment None = except_assessment
    /\ (contains (lit "{") assessment_text && contains (lit "}") assessment_text = false ->
        final_assessment (Some text) = fallback_assessment)
    /\ (contains (lit "{") assessment_text && contains (lit "}") assessment_text = true ->
        exists json_str : str,
          json_candidate assessment_text = Some json_str
          /\ (json_loads json_str = None ->
              final_assessment (Some text) = except_assessment)
          /\ (json_loads json_str = Some (JDict d) ->
              final_assessment (Some text)
              = if forallb (fun f => dict_has f d) required_fields
                then JDict d else fallback_assessment))
    /\ field (lit "score") fallback_assessment = Some (JInt 85)
    /\ field (lit "stars") fallback_assessment = Some (JInt 4)
    /\ field (lit "score") except_assessment = Some (JInt 80)
    /\ field (lit "stars") except_assessment = Some (JInt 4).
Proof.
  intros text d assessment_text. split_and!; try done.
  - intros Hno. unfold final_assessment, try_assessment. simpl.
    fold assessment_text. by rewrite Hno.
  - intros Hyes. apply andb_true_iff in Hyes as Hboth. destruct Hboth as [Ho Hc].
    destruct (json_candidate_is_Some _ Ho Hc) as [json_str Hcand].
    exists json_str. split_and!; [done| |].
    + intros Hraise. unfold final_assessment, try_assessment. simpl.
      fold assessment_text. by rewrite Hyes, Hcand; simpl; rewrite Hraise.
    + intros Hdict. unfold final_assessment, try_assessment.
      remember required_fields as fields. simpl.
      fold assessment_text. rewrite Hyes, Hcand. simpl. rewrite Hdict.
      unfold mbind, option_bind. rewrite py_all_dict.
      by destruct (forallb _ fields).
Qed.

(** C4, as the code has it. The two defaults are structurally valid, and
    what the extraction gives is one of them or else the value json.loads
    built from the candidate, unchanged: of that value only the presence of
    the five required fields is tested, never a score, a number of stars or
    the type of a field. *)
Theorem C4_decoded_value_unchecked :
  forall assessment_response : option str,
    structurally_valid fallback_assessment = true
    /\ structurally_valid except_assessment = true
    /\ (final_assessment assessment_response = fallback_assessment
        \/ final_assessment assessment_response = except_assessment
        \/ exists (text json_str : str) (assessment : JSON),
             assessment_response = Some text
             /\ json_candidate (unfence (strip text)) = Some json_str
             /\ json_loads json_str = Some assessment
             /\ py_all (map (fun f => py_in f assessment) required_fields) = Some true
             /\ final_assessment assessment_response = assessment).
Proof.
  intros assessment_response. split_and!; [done|done|].
  unfold final_assessment, try_assessment.
  remember required_fields as fields.
  destruct assessment_response as [text|]; simpl; [|by right; left].
  destruct (contains _ _ && contains _ _); [|by left].
  destruct (json_candidate (unfence (strip text))) as [json_str|] eqn:Hcand;
    simpl; [|by right; left].
  destruct (json_loads json_str) as [assessment|] eqn:Hload; simpl; [|by right; left].
  destruct (py_all _) as [[|]|] eqn:Hall; simpl.
  - right; right. by exists text, json_str, assessment.
  - by left.
  - by right; left.
Qed.

End Assessment.

(** ** Text around an embedded object (C5) *)

Section Framing.

Implicit Types (c : N) (p old new s A B R X : str).

Lemma startswith_app p s R : startswith p s = true -> startswith p (s ++ R) = true.
Proof.
  revert s. induction p as [|a p IH]; intros [|b s]; simpl; try done.
  intros [-> Hp]%andb_true_iff. by rewrite (IH _ Hp).
Qed.

(** An occurrence cannot run over a code point the pattern does not have. *)
Lemma startswith_boundary p A c R :
  c ∉ p -> startswith p (A ++ c :: R) = true -> (length p <= length A)%nat.
Proof.
  revert A. induction p as [|a p IH]; intros A Hc; simpl; [lia|].
  apply not_elem_of_cons in Hc as [Hca Hcp].
  destruct A as [|b A]; simpl.
  - intros [Hac _]%andb_true_iff. apply N.eqb_eq in Hac. congruence.
  - intros [_ Hp]%andb_true_iff. specialize (IH A Hcp Hp). lia.
Qed.

Lemma startswith_within p A R :
  (length p <= length A)%nat -> startswith p (A ++ R) = startswith p A.
Proof.
  revert A. induction p as [|a p IH]; intros [|b A]; simpl; try done; try lia.
  intros Hlen. rewrite IH by lia. done.
Qed.

Lemma startswith_prefix p q s : startswith (p ++ q) s = true -> startswith p s = true.
Proof.
  revert s. induction p as [|a p IH]; intros [|b s]; simpl; try done.
  intros [-> Hp]%andb_true_iff. by rewrite (IH _ Hp).
Qed.

Lemma contains_prefix p q s : contains (p ++ q) s = false \/ contains p s = true.
Proof.
  induction s as [|x s IH]; simpl.
  - destruct (startswith (p ++ q) []) eqn:Hpq; [|by left].
    right. by rewrite (startswith_prefix _ _ _ Hpq).
  - destruct (startswith (p ++ q) (x :: s)) eqn:Hpq.
    + right. by rewrite (startswith_prefix _ _ _ Hpq).
    + destruct IH as [->| ->]; [by left|right]. by rewrite orb_true_r.
Qed.

(** A text that ends with a code point the pattern does not have, and holds
    no occurrence of the pattern, is copied. *)
Lemma replace_from_copy old new X e R :
  e ∉ old -> old <> [] -> contains old (X ++ [e]) = false ->
  replace_from old new 0 ((X ++ [e]) ++ R)
  = (X ++ [e]) ++ replace_from old new 0 R.
Proof.
  intros He Hold. induction X as [|x X IH]; intros Hfree.
  - destruct old as [|a old]; [done|]. cbn [app replace_from startswith].
    apply not_elem_of_cons in He as [Hea _].
    by rewrite (proj2 (N.eqb_neq a e)) by done.
  - simpl in Hfree. apply orb_false_iff in Hfree as [Hhere Hlater].
    rewrite <- !app_comm_cons. cbn [replace_from].
    destruct (startswith old (x :: (X ++ [e]) ++ R)) eqn:Hstart.
    + exfalso. rewrite <- app_assoc in Hstart.
      assert (length old <= length (x :: X))%nat as Hlen
        by (by apply (startswith_boundary _ (x :: X) e R He)).
      rewrite (app_comm_cons X), startswith_within in Hstart by done.
      apply (startswith_app _ _ [e]) in Hstart.
      rewrite <- app_comm_cons in Hstart. congruence.
    + by rewrite IH.
Qed.

(** Replacement goes through the text before, through the object and
    through the text after, one after the other, when the object is copied
    and begins with a code point that the pattern does not have. *)
Lemma replace_from_frame old new o X B :
  o ∉ old ->
  replace_from old new 0 ((o :: X) ++ B) = (o :: X) ++ replace_from old new 0 B ->
  forall A (skip : nat),
    (skip <= length A)%nat ->
    replace_from old new skip (A ++ (o :: X) ++ B)
    = replace_from old new skip A ++ (o :: X) ++ replace_from old new 0 B.
Proof.
  intros Ho Hcopy. induction A as [|a A IH]; intros skip Hskip.
  - simpl in Hskip. replace skip with 0%nat by lia.
    change (replace_from old new 0 []) with (@nil N).
    by rewrite !app_nil_l.
  - destruct skip as [|k].
    + rewrite <- app_comm_cons. cbn [replace_from].
      destruct (startswith old (a :: A ++ (o :: X) ++ B)) eqn:Hstart.
      * assert (length old <= length (a :: A))%nat as Hlen
          by (apply (startswith_boundary _ (a :: A) o (X ++ B) Ho); done).
        rewrite (app_comm_cons A), startswith_within in Hstart by done.
        rewrite Hstart, IH by (simpl in *; lia).
        by rewrite app_assoc.
      * destruct (startswith old (a :: A)) eqn:Hin.
        { apply (startswith_app _ _ ((o :: X) ++ B)) in Hin.
          rewrite <- app_comm_cons in Hin. congruence. }
        by rewrite IH by lia.
    + rewrite <- app_comm_cons. cbn [replace_from]. apply IH. simpl in Hskip. lia.
Qed.

(** Removing occurrences adds no code point. *)
Lemma replace_from_removes (P : N -> Prop) old s :
  Forall P s -> forall skip : nat, Forall P (replace_from old [] skip s).
Proof.
  induction 1 as [|x s Hx Hs IH]; intros skip; [constructor|].
  cbn [replace_from]. destruct skip; [|apply IH].
  destruct (startswith old (x :: s)); simpl; [apply IH|].
  constructor; [done|apply IH].
Qed.

Lemma lstrip_nonspace A c R :
  isspace c = false -> lstrip (A ++ c :: R) = lstrip A ++ c :: R.
Proof.
  intros Hc. induction A as [|a A IH]; simpl; [by rewrite Hc|].
  by destruct (isspace a).
Qed.

Lemma lstrip_keeps (P : N -> Prop) s : Forall P s -> Forall P (lstrip s).
Proof.
  induction 1 as [|x s Hx Hs IH]; simpl; [constructor|].
  destruct (isspace x); [done|by constructor].
Qed.

Lemma rstrip_nonspace R c B :
  isspace c = false -> rstrip (R ++ c :: B) = R ++ c :: rstrip B.
Proof.
  intros Hc. unfold rstrip.
  rewrite rev_app_distr. simpl. rewrite <- app_assoc. simpl.
  rewrite lstrip_nonspace by done.
  rewrite rev_app_distr. simpl. by rewrite rev_involutive, <- app_assoc.
Qed.

Lemma rstrip_keeps (P : N -> Prop) s : Forall P s -> Forall P (rstrip s).
Proof.
  intros Hs. unfold rstrip.
  apply Forall_rev, lstrip_keeps, Forall_rev, Hs.
Qed.

Lemma index_first c A R : c ∉ A -> index [c] (A ++ c :: R) = Some (length A).
Proof.
  induction A as [|a A IH]; simpl.
  - intros _. by rewrite N.eqb_refl.
  - intros [Ha HA]%not_elem_of_cons.
    rewrite (proj2 (N.eqb_neq c a)) by done. simpl. by rewrite IH.
Qed.

Lemma rindex_absent c B : c ∉ B -> rindex [c] B = None.
Proof.
  induction B as [|b B IH]; [done|].
  intros [Hb HB]%not_elem_of_cons. simpl.
  by rewrite IH, (proj2 (N.eqb_neq c b)).
Qed.

Lemma rindex_last c R B : c ∉ B -> rindex [c] (R ++ c :: B) = Some (length R).
Proof.
  intros HB. induction R as [|r R IH]; simpl.
  - by rewrite rindex_absent, N.eqb_refl.
  - by rewrite IH.
Qed.

Lemma contains_elem c s : c ∈ s -> contains [c] s = true.
Proof.
  induction s as [|x s IH]; [by intros ?%elem_of_nil|].
  intros [->|Hin]%elem_of_cons; simpl.
  - by rewrite N.eqb_refl.
  - rewrite (IH Hin). by destruct (c =? x).
Qed.

End Framing.

Lemma absent_Forall (c : N) (s : str) : c ∉ s <-> Forall (fun x => x <> c) s.
Proof.
  rewrite Forall_forall. split.
  - intros Hc x Hx ->. done.
  - intros Hall Hc. by apply (Hall c Hc).
Qed.

(** An object text that holds no fence marker, between text [A] without an
    opening brace and text [B] without a closing brace, is what is handed to
    json.loads. *)
Lemma json_candidate_framed (A body B : str) :
  let embedded := lit "{" ++ body ++ lit "}" in
  let assessment_text := unfence (strip (A ++ embedded ++ B)) in
  123 ∉ A -> 125 ∉ B -> contains (lit "```") embedded = false ->
  contains (lit "{") assessment_text = true
  /\ contains (lit "}") assessment_text = true
  /\ json_candidate assessment_text = Some embedded.
Proof.
  intros embedded assessment_text HA HB Hfence.
  assert (contains (lit "```json") embedded = false) as Hfence_json
    by (destruct (contains_prefix (lit "```") (lit "json") embedded) as [Hno|Hyes];
        [exact Hno | by rewrite Hyes in Hfence]).
  assert (exists A' B' : str,
             assessment_text = A' ++ embedded ++ B' /\ (123 ∉ A') /\ (125 ∉ B'))
    as (A' & B' & -> & HA' & HB').
  { subst assessment_text embedded. unfold unfence, strip, replace.
    change (lit "{") with [123] in *. change (lit "}") with [125] in *.
    change (lit "```json") with [96; 96; 96; 106; 115; 111; 110] in *.
    change (lit "```") with [96; 96; 96] in *.
    assert (forall X Y : str,
               X ++ ([123] ++ body ++ [125]) ++ Y
               = (X ++ 123 :: body) ++ 125 :: Y) as Hright
      by (intros; by rewrite <- !app_assoc).
    assert (forall X Y : str,
               X ++ ([123] ++ body ++ [125]) ++ Y
               = X ++ 123 :: (body ++ [125]) ++ Y) as Hleft
      by (intros; by rewrite <- !app_assoc).
    assert (forall (old X Y : str),
               123 ∉ old -> 125 ∉ old -> old <> [] ->
               contains old ([123] ++ body ++ [125]) = false ->
               replace_from old [] 0 (X ++ ([123] ++ body ++ [125]) ++ Y)
               = replace_from old [] 0 X ++ ([123] ++ body ++ [125])
                 ++ replace_from old [] 0 Y) as Hrep.
    { intros old X Y Hopen Hclose Hold Hfree.
      apply (replace_from_frame old [] 123 (body ++ [125]) Y Hopen); [|lia].
      apply (replace_from_copy old [] (123 :: body) 125 Y Hclose Hold Hfree). }
    rewrite Hleft, lstrip_nonspace, <- Hleft by done.
    rewrite Hright, rstrip_nonspace, <- Hright by done.
    rewrite Hrep by (done || absent).
    rewrite Hrep by (done || absent).
    rewrite Hleft, lstrip_nonspace, <- Hleft by done.
    rewrite Hright, rstrip_nonspace, <- Hright by done.
    eexists _, _. split; [reflexivity|].
    rewrite !absent_Forall in *.
    split.
    - apply lstrip_keeps. do 2 apply replace_from_removes. by apply lstrip_keeps.
    - apply rstrip_keeps. do 2 apply replace_from_removes. by apply rstrip_keeps. }
  subst embedded. change (lit "{") with [123]. change (lit "}") with [125].
  split_and!.
  - apply contains_elem. rewrite !elem_of_app, elem_of_cons. tauto.
  - apply contains_elem. rewrite !elem_of_app, !elem_of_cons. tauto.
  - unfold json_candidate.
    change (lit "{") with [123]. change (lit "}") with [125].
    replace (A' ++ ([123] ++ body ++ [125]) ++ B')
      with (A' ++ 123 :: (body ++ [125]) ++ B') at 1 by (by rewrite <- !app_assoc).
    rewrite index_first by done. simpl.
    replace (A' ++ ([123] ++ body ++ [125]) ++ B')
      with ((A' ++ [123] ++ body) ++ 125 :: B') at 1 by (by rewrite <- !app_assoc).
    rewrite rindex_last by done. simpl. f_equal.
    unfold slice. rewrite drop_app_length.
    rewrite !length_app. simpl.
    replace (S (length A' + S (length body)) - length A')%nat
      with (length ([123] ++ body ++ [125])) by (rewrite !length_app; simpl; lia).
    change (123 :: (body ++ [125]) ++ B') with (([123] ++ body ++ [125]) ++ B').
    by rewrite take_app_length.
Qed.

Section Embedded.

Context `{Python}.

(** C5, as the code has it. Take an object text that holds no run of three
    backticks, put any text without an opening brace before it and any text
    without a closing brace after it, fence markers with or without the json
    tag included: the object text is what json.loads is given, and when
    json.loads makes of it a dict with the five required keys, that dict is
    the assessment, unchanged. *)
Theorem C5_embedded_object_extracted :
  forall (A body B : str) (d : list (str * JSON)),
    let embedded := lit "{" ++ body ++ lit "}" in
    123 ∉ A -> 125 ∉ B -> contains (lit "```") embedded = false ->
    json_loads embedded = Some (JDict d) ->
    forallb (fun f => dict_has f d) required_fields = true ->
    json_candidate (unfence (strip (A ++ embedded ++ B))) = Some embedded
    /\ final_assessment (Some (A ++ embedded ++ B)) = JDict d.
Proof.
  intros A body B d embedded HA HB Hfence Hload Hkeys.
  destruct (json_candidate_framed A body B HA HB Hfence) as (Hopen & Hclose & Hcand).
  fold embedded in Hopen, Hclose, Hcand.
  split; [done|].
  unfold final_assessment, try_assessment, mbind, option_bind.
  cbv beta iota zeta.
  rewrite Hopen, Hclose. cbv beta iota delta [andb].
  by rewrite Hcand, Hload, py_all_dict, Hkeys.
Qed.

End Embedded.

(** ** The theorems at concrete inputs *)

Lemma C1_witness :
  replicate 11 sample_call !! 10%nat = Some sample_call
  /\ (converse (init (lit "Cafe") (lit "lesson") (lit "english"))
        (replicate 11 sample_call)).2 !! 10%nat
     = Some (Some (Assessment except_assessment)).
Proof.
  split; [reflexivity|].
  destruct (C1_final_from_turn_ten_on
              (init [] [] []) [] [] (lit "Cafe") (lit "lesson") (lit "english")
              None (replicate 11 sample_call) 10 sample_call) as (_ & _ & Hrun).
  rewrite Hrun by reflexivity. reflexivity.
Defined.

Lemma C3_witness :
  contains (lit "{") (unfence (strip (dq "{x}")))
  && contains (lit "}") (unfence (strip (dq "{x}"))) = true
  /\ json_loads (dq "{x}") = None
  /\ final_assessment (Some (dq "{x}")) = except_assessment.
Proof.
  split; [reflexivity|]. split; [reflexivity|].
  destruct (C3_two_defaults (dq "{x}") []) as (_ & _ & Hbraces & _).
  destruct Hbraces as (json_str & Hcand & Hraise & _); [reflexivity|].
  apply Hraise. vm_compute in Hcand. injection Hcand as <-. reflexivity.
Defined.

Lemma C5_witness :
  let A := lit "Sure! ```json " in
  let B := lit " ``` Hope this helps." in
  let embedded := lit "{" ++ sample_members ++ lit "}" in
  json_loads embedded = Some (JDict sample_assessment)
  /\ final_assessment (Some (A ++ embedded ++ B)) = JDict sample_assessment.
Proof.
  intros A B embedded. split; [reflexivity|].
  apply (C5_embedded_object_extracted A sample_members B sample_assessment).
  - apply (bool_decide_unpack _). by vm_compute.
  - apply (bool_decide_unpack _). by vm_compute.
  - reflexivity.
  - reflexivity.
  - reflexivity.
Defined.

Lemma C6_witness :
  let conversations : gmap str ConversationManager :=
    {[ lit "s1" := add_message (lit "user") (lit "Hi") (init [] [] (lit "english")) ]} in
  lit "s2" <> lit "s1"
  /\ create conversations (lit "s1") (lit "Cafe") (lit "lesson") (lit "hindi") !! lit "s2"
     = conversations !! lit "s2".
Proof.
  intros conversations.
  assert (lit "s2" <> lit "s1") as Hother by (by vm_compute).
  split; [exact Hother|].
  destruct (C6_create_overwrites conversations (lit "s1") (lit "Cafe") (lit "lesson")
              (lit "hindi") None None None) as (_ & _ & _ & _ & Hrest & _).
  apply Hrest. exact Hother.
Defined.

Lemma C7_witness :
  let self := init (lit "Cafe") (lit "lesson") (lit "english") in
  let conversations : gmap str ConversationManager := {[ lit "s1" := self ]} in
  conversations !! lit "s1" = Some self
  /\ send_message conversations (lit "s1") (lit "Hi") None None None
     = (<[lit "s1" := add_message (lit "user") (lit "Hi") self]> conversations,
        SendError).
Proof.
  intros self conversations.
  assert (conversations !! lit "s1" = Some self) as Hin by reflexivity.
  split; [exact Hin|].
  destruct (C7_failed_call_keeps_user_turn conversations self (lit "s1") (lit "Hi")
              None None Hin) as (_ & _ & _ & Hsend).
  exact Hsend.
Defined.

Lemma C8_witness :
  let conversations : gmap str ConversationManager :=
    {[ lit "s2" := init (lit "Cafe") (lit "lesson") (lit "english") ]} in
  conversations !! lit "s1" = None
  /\ lit "s2" <> lit "s1"
  /\ (end_session conversations (lit "s1")).1 = conversations
  /\ (end_session conversations (lit "s1")).1 !! lit "s2" = conversations !! lit "s2".
Proof.
  intros conversations.
  assert (conversations !! lit "s1" = None) as Habsent by reflexivity.
  assert (lit "s2" <> lit "s1") as Hother by (by vm_compute).
  destruct (C8_end_session_idempotent conversations (lit "s1") [] None None None)
    as (_ & _ & _ & Hnoop & _ & Hrest).
  split_and!; [exact Habsent | exact Hother | exact (Hnoop Habsent) | exact (Hrest _ Hother)].
Defined.

Lemma C9_witness :
  config (init [] [] (lit "klingon")) = english_config
  /\ config (init [] [] (lit "TAMIL")) = config (init [] [] (lit "tamil"))
  /\ language_configs !! lit "tamil" = Some (config (init [] [] (lit "TAMIL"))).
Proof.
  destruct (C9_language_lookup [] [] (lit "klingon") []) as (Hout & _).
  destruct (C9_language_lookup [] [] (lit "TAMIL") (lit "tamil"))
    as (_ & Hcase & Hkey & _).
  split_and!.
  - apply Hout. apply (bool_decide_unpack _). by vm_compute.
  - apply Hcase; reflexivity.
  - apply Hkey; [reflexivity|]. apply (bool_decide_unpack _). by vm_compute.
Defined.

(** ** Where the specification and the code part *)

(** C1: on one manager the tenth call returns an assessment and the eleventh
    call returns one again; nine messages come before them. *)
Lemma C1_counterexample :
  map (fun r : option TurnResult => is_final <$> r)
    (converse (init (lit "Cafe") (lit "lesson") (lit "english"))
       (replicate 11 sample_call)).2
  = replicate 9 (Some false) ++ [Some true; Some true].
Proof. by vm_compute. Qed.

(** C1: when the first model call of the tenth turn raises, turn 10 passes
    with no assessment and the assessment comes at turn 11. *)
Example assessment_after_failed_tenth_call :
  let failed := {| call_message := lit "Hi"; call_response := None;
                   call_assessment_response := None |} in
  map (fun r : option TurnResult => is_final <$> r)
    (converse (init (lit "Cafe") (lit "lesson") (lit "english"))
       (replicate 9 sample_call ++ [failed; sample_call])).2
  = replicate 9 (Some false) ++ [None; Some true].
Proof. by vm_compute. Qed.

(** C3: a text that json.loads rejects, and a model call that raised, give
    the default with score 80, which is not the default with score 85. *)
Lemma C3_counterexample :
  json_loads (dq "{x}") = None
  /\ field (lit "score") (final_assessment (Some (dq "{x}"))) = Some (JInt 80)
  /\ field (lit "score") (final_assessment None) = Some (JInt 80)
  /\ final_assessment (Some (dq "{x}")) <> fallback_assessment.
Proof. split_and!; by vm_compute. Qed.

(** C4: an object with a score of 999, no star, a null message, a number
    and a list for the other fields is the assessment. *)
Lemma C4_counterexample :
  final_assessment (Some unchecked_object)
  = JDict
      [(lit "score", JInt 999);
       (lit "stars", JInt 0);
       (lit "message", JNull);
       (lit "what_you_did_well", JInt 7);
       (lit "improvement_tip", JList [])]
  /\ structurally_valid (final_assessment (Some unchecked_object)) = false.
Proof. split; by vm_compute. Qed.

(** C5: a brace in the text before the fence makes the candidate start
    there, and the except default is returned; fence markers inside a value
    of the object are removed from the value. *)
Lemma C5_counterexample :
  json_loads (lit "{" ++ sample_members ++ lit "}") = Some (JDict sample_assessment)
  /\ final_assessment
       (Some (lit "Here {it} is: ```json " ++ (lit "{" ++ sample_members ++ lit "}")
              ++ lit " ```"))
     = except_assessment
  /\ field (lit "message") <$> json_loads (lit "{" ++ fenced_members ++ lit "}")
     = Some (Some (JStr (lit "Say ```hola```")))
  /\ field (lit "message")
       (final_assessment
          (Some (lit "```json " ++ (lit "{" ++ fenced_members ++ lit "}") ++ lit " ```")))
     = Some (JStr (lit "Say hola")).
Proof. split_and!; by vm_compute. Qed.

(** C6: /start_session on an id that is registered answers with status
    success and puts a new manager in the place of the registered one. *)
Lemma C6_counterexample :
  let old := (converse (init (lit "Cafe") (lit "lesson") (lit "english"))
                [sample_call; sample_call]).1 in
  let conversations : gmap str ConversationManager := {[ lit "s1" := old ]} in
  let started :=
    start_session conversations (lit "s1") (Some (lit "Cafe")) (Some (lit "lesson"))
      (Some (lit "english")) (Some (lit "Welcome!")) None None in
  conversations !! lit "s1" = Some old
  /\ turn_count old = 2%Z
  /\ started.2 = StartSuccess (lit "s1") (lit "Welcome!") None
  /\ turn_count <$> (started.1 !! lit "s1") = Some 1%Z
  /\ started.1 !! lit "s1" <> Some old.
Proof.
  split_and!; by vm_compute.
Qed.

(** * Further properties of the code *)

(** ** The choice of the model at start-up *)

Section Startup.

Variable attempt : nat -> str -> Attempt.

Lemma select_from_constructor_raised (options : list str) :
  forall (i : nat) (model : option str),
    (forall (j : nat) (name : str),
        options !! j = Some name -> attempt (i + j) name = ConstructorRaised) ->
    select_from attempt i model options = model.
Proof.
  induction options as [|name0 rest IH]; intros i model Hall; [done|].
  simpl. rewrite <- (Nat.add_0_r i) at 1. rewrite (Hall 0%nat name0) by done.
  apply IH. intros j name Hj.
  replace (S i + j)%nat with (i + S j)%nat by lia. by apply Hall.
Qed.

Lemma select_from_None (options : list str) :
  forall (i : nat) (model : option str),
    select_from attempt i model options = None
    <-> model = None
        /\ forall (j : nat) (name : str),
             options !! j = Some name -> attempt (i + j) name = ConstructorRaised.
Proof.
  induction options as [|name0 rest IH]; intros i model; simpl.
  - split; [by intros ->|by intros [-> _]].
  - destruct (attempt i name0) eqn:Hat.
    + rewrite IH. split; intros [Hm Hall]; (split; [done|]).
      * intros [|j] name Hj.
        -- simpl in Hj. injection Hj as <-. by rewrite Nat.add_0_r.
        -- replace (i + S j)%nat with (S i + j)%nat by lia. by apply Hall.
      * intros j name Hj. replace (S i + j)%nat with (i + S j)%nat by lia.
        by apply Hall.
    + rewrite IH. split; [by intros [? _]|].
      intros [_ Hall]. specialize (Hall 0%nat name0 eq_refl).
      rewrite Nat.add_0_r in Hall. congruence.
    + split; [done|]. intros [_ Hall]. specialize (Hall 0%nat name0 eq_refl).
      rewrite Nat.add_0_r in Hall. congruence.
Qed.

Lemma select_from_first_worked (options : list str) :
  forall (i : nat) (model : option str) (j : nat) (name : str),
    options !! j = Some name ->
    attempt (i + j) name = Worked ->
    (forall (k : nat) (name' : str),
        (k < j)%nat -> options !! k = Some name' -> attempt (i + k) name' <> Worked) ->
    select_from attempt i model options = Some name.
Proof.
  induction options as [|name0 rest IH]; intros i model j name Hj Hworked Hbefore;
    [done|].
  destruct j as [|j]; simpl in Hj.
  - injection Hj as <-. simpl. rewrite Nat.add_0_r in Hworked. by rewrite Hworked.
  - assert (attempt i name0 <> Worked) as Hfirst.
    { rewrite <- (Nat.add_0_r i). apply Hbefore; [lia|done]. }
    assert (forall model', select_from attempt (S i) model' rest = Some name) as Hrest.
    { intros model'. apply (IH (S i) model' j name Hj).
      - by replace (S i + j)%nat with (i + S j)%nat by lia.
      - intros k name' Hk Hin. replace (S i + k)%nat with (i + S k)%nat by lia.
        apply Hbefore; [lia|done]. }
    simpl. destruct (attempt i name0); [apply Hrest|apply Hrest|done].
Qed.

Lemma select_from_last_built (options : list str) :
  forall (i : nat) (model : option str) (j : nat) (name : str),
    options !! j = Some name ->
    attempt (i + j) name = TestRaised ->
    (forall (k : nat) (name' : str),
        (k < j)%nat -> options !! k = Some name' -> attempt (i + k) name' <> Worked) ->
    (forall (k : nat) (name' : str),
        (j < k)%nat -> options !! k = Some name' ->
        attempt (i + k) name' = ConstructorRaised) ->
    select_from attempt i model options = Some name.
Proof.
  induction options as [|name0 rest IH];
    intros i model j name Hj Htest Hbefore Hafter; [done|].
  destruct j as [|j]; simpl in Hj.
  - injection Hj as <-. simpl. rewrite Nat.add_0_r in Htest. rewrite Htest.
    apply select_from_constructor_raised. intros k name' Hk.
    replace (S i + k)%nat with (i + S k)%nat by lia. apply Hafter; [lia|done].
  - assert (attempt i name0 <> Worked) as Hfirst.
    { rewrite <- (Nat.add_0_r i). apply Hbefore; [lia|done]. }
    assert (forall model', select_from attempt (S i) model' rest = Some name) as Hrest.
    { intros model'. apply (IH (S i) model' j name Hj).
      - by replace (S i + j)%nat with (i + S j)%nat by lia.
      - intros k name' Hk Hin. replace (S i + k)%nat with (i + S k)%nat by lia.
        apply Hbefore; [lia|done].
      - intros k name' Hk Hin. replace (S i + k)%nat with (i + S k)%nat by lia.
        apply Hafter; [lia|done]. }
    simpl. destruct (attempt i name0); [apply Hrest|apply Hrest|done].
Qed.

(** X1. Start-up stops with the ValueError of [if model is None] exactly
    when the constructor raised for every option; a test call that raised
    does not lead there. *)
Theorem startup_raises_iff_no_model_built (listed : list ListedModel) :
  startup_model listed attempt = None
  <-> forall (j : nat) (name : str),
        model_options listed !! j = Some name -> attempt j name = ConstructorRaised.
Proof.
  unfold startup_model. rewrite select_from_None. simpl.
  split; [by intros [_ Hall]|by intros Hall].
Qed.

(** X2. When an option works and none before it does, that option is the
    model, whatever the later options would do. *)
Theorem startup_selects_first_working (listed : list ListedModel) (j : nat) (name : str) :
  model_options listed !! j = Some name ->
  attempt j name = Worked ->
  (forall (k : nat) (name' : str),
      (k < j)%nat -> model_options listed !! k = Some name' ->
      attempt k name' <> Worked) ->
  startup_model listed attempt = Some name.
Proof.
  intros Hj Hworked Hbefore.
  by apply (select_from_first_worked (model_options listed) 0 None j name).
Qed.

(** X3. When no option works, start-up still ends with a model as soon as
    one constructor returned: the last option whose constructor returned,
    the test call of which raised. *)
Theorem startup_keeps_model_that_failed (listed : list ListedModel) (j : nat) (name : str) :
  model_options listed !! j = Some name ->
  attempt j name = TestRaised ->
  (forall (k : nat) (name' : str),
      (k < j)%nat -> model_options listed !! k = Some name' ->
      attempt k name' <> Worked) ->
  (forall (k : nat) (name' : str),
      (j < k)%nat -> model_options listed !! k = Some name' ->
      attempt k name' = ConstructorRaised) ->
  startup_model listed attempt = Some name.
Proof.
  intros Hj Htest Hbefore Hafter.
  by apply (select_from_last_built (model_options listed) 0 None j name).
Qed.

End Startup.

(** ** Language codes of the speech services *)

Lemma speech_maps_keys (k : str) :
  k ∉ language_keys -> tts_lang_map !! k = None /\ language_map !! k = None.
Proof.
  intros Hk. split; by apply not_elem_of_list_to_map_1.
Qed.

Lemma lang_code_keys :
  map lang_code language_keys
  = [lit "en"; lit "hi"; lit "kn"; lit "ta"; lit "te"; lit "ml"; lit "bn"].
Proof. by vm_compute. Qed.

Section SpeechCodes.

Context `{Python}.

(** X4. For every identifier, the locale given to the recognizer begins with
    the language code that text_to_speech uses for the lower-cased
    identifier, followed by a hyphen: the two tables name the same language,
    and an identifier neither table knows is English in both. *)
Theorem speech_codes_agree (language : str) :
  startswith (lang_code (str_lower language) ++ lit "-") (language_code language) = true.
Proof.
  unfold language_code, lang_code.
  destruct (decide (str_lower language ∈ language_keys)) as [Hin|Hout].
  - unfold language_keys in Hin.
    repeat (apply elem_of_cons in Hin as [-> | Hin]; [by vm_compute|]).
    by apply elem_of_nil in Hin.
  - destruct (speech_maps_keys _ Hout) as [-> ->]. by vm_compute.
Qed.

(** X5. text_to_speech looks the identifier up as it is written.  An ASCII
    identifier that is a key but for its case gets the code en there, while
    the manager built from it has the profile of the key, and has the key as
    its language, with the code of the key; that code is en for english
    only. *)
Theorem text_to_speech_is_case_sensitive
    (synthesize : str -> str -> option str) (text topic lesson_content identifier : str) :
  forallb is_ascii identifier = true ->
  map ascii_lower identifier ∈ language_keys ->
  identifier ∉ language_keys ->
  let self := init topic lesson_content identifier in
  text_to_speech synthesize text identifier = synthesize text (lit "en")
  /\ language_configs !! map ascii_lower identifier = Some (config self)
  /\ text_to_speech synthesize text (language self)
     = synthesize text (lang_code (map ascii_lower identifier))
  /\ (map ascii_lower identifier <> lit "english" ->
      lang_code (map ascii_lower identifier) <> lit "en").
Proof.
  intros Hascii Hkey Hspelled self. split_and!.
  - unfold text_to_speech, lang_code.
    by destruct (speech_maps_keys _ Hspelled) as [-> _].
  - subst self. rewrite config_init, str_lower_ascii by done.
    destruct (language_configs !! map ascii_lower identifier) as [c|] eqn:Hc; [done|].
    exfalso. apply (not_elem_of_list_to_map_2 _ _ Hc).
    by rewrite fst_zip by (vm_compute; lia).
  - subst self. unfold text_to_speech, init. simpl.
    by rewrite str_lower_ascii.
  - unfold language_keys in Hkey.
    repeat (apply elem_of_cons in Hkey as [-> | Hkey]; [by vm_compute|]).
    by apply elem_of_nil in Hkey.
Qed.

End SpeechCodes.

(** ** The registry under requests *)

Section Requests.

Context `{Python}.

Lemma get_response_length (self : ConversationManager) (user_message : str)
    (response assessment_response : option str) :
  length (history (get_response self user_message response assessment_response).1)
  = (length (history self) + match response with Some _ => 2 | None => 1 end)%nat.
Proof.
  rewrite get_response_manager. destruct response;
    rewrite !add_message_history, !length_app; simpl; lia.
Qed.

Lemma get_response_head (self : ConversationManager) (user_message : str)
    (response assessment_response : option str) :
  head (history (get_response self user_message response assessment_response).1)
  = match history self with
    | [] => Some {| role := lit "user"; content := user_message |}
    | first :: _ => Some first
    end.
Proof.
  rewrite get_response_manager. destruct response;
    rewrite !add_message_history; by destruct (history self).
Qed.

Lemma get_response_counts (self : ConversationManager) (user_message : str)
    (response assessment_response : option str) :
  turn_count self = user_turns (history self) ->
  turn_count (get_response self user_message response assessment_response).1
  = user_turns (history (get_response self user_message response assessment_response).1).
Proof.
  intros Hinv. rewrite get_response_manager.
  destruct response; repeat apply add_message_counts; done.
Qed.

Lemma get_response_started (self : ConversationManager) (user_message : str)
    (response assessment_response : option str) :
  started self ->
  started (get_response self user_message response assessment_response).1.
Proof.
  intros (Hmax & Hhead & Hcount & Hone & Hlen). unfold started.
  rewrite get_response_max_turns, get_response_head, get_response_turn_count,
    get_response_length.
  split_and!; try done; try lia.
  - by destruct (history self).
  - rewrite <- get_response_turn_count
      with (user_message := user_message) (response := response)
           (assessment_response := assessment_response).
    by apply get_response_counts.
  - destruct response; lia.
  - destruct response; lia.
Qed.

Lemma start_started (topic lesson_content language : str)
    (response assessment_response : option str) :
  started (get_response (init topic lesson_content language)
             (lit "Hello, I'm ready to practice!") response assessment_response).1.
Proof.
  unfold started.
  rewrite get_response_max_turns, get_response_head, get_response_turn_count,
    get_response_length.
  split_and!; try done.
  - rewrite <- get_response_turn_count
      with (user_message := lit "Hello, I'm ready to practice!")
           (response := response) (assessment_response := assessment_response).
    by apply get_response_counts.
  - simpl. destruct response; lia.
  - simpl. destruct response; lia.
Qed.

Lemma start_session_registry (conversations : gmap str ConversationManager)
    (session_id : str) (topic lesson_content language : option str)
    (response assessment_response audio : option str) :
  (start_session conversations session_id topic lesson_content language
     response assessment_response audio).1
  = <[session_id :=
        (get_response
           (init (default (lit "Ordering at a Café") topic)
              (default (lit "Basic café ordering phrases and polite requests")
                 lesson_content)
              (default (lit "english") language))
           (lit "Hello, I'm ready to practice!") response assessment_response).1]>
      conversations.
Proof.
  unfold start_session, create.
  destruct (get_response _ _ response assessment_response) as [manager [[m|a]|]];
    simpl; apply insert_insert_eq.
Qed.

Lemma send_message_registry (conversations : gmap str ConversationManager)
    (session_id user_message : str) (response assessment_response audio : option str) :
  (send_message conversations session_id user_message
     response assessment_response audio).1
  = match conversations !! session_id with
    | None => conversations
    | Some conversation =>
      <[session_id :=
          (get_response conversation user_message response assessment_response).1]>
        conversations
    end.
Proof.
  unfold send_message. destruct (conversations !! session_id) as [c|]; [|done].
  by destruct (get_response c user_message response assessment_response) as [c' [r|]].
Qed.

Lemma serve_started (conversations : gmap str ConversationManager) (r : Request) :
  map_Forall (fun _ m => started m) conversations ->
  map_Forall (fun _ m => started m) (serve conversations r).
Proof.
  intros Hall. destruct r as [sid t l lang resp aresp au|sid msg resp aresp au|sid];
    unfold serve.
  - rewrite start_session_registry. apply map_Forall_insert_2; [|done].
    apply start_started.
  - rewrite send_message_registry.
    destruct (conversations !! sid) as [c|] eqn:Hc; [|done].
    apply map_Forall_insert_2; [|done].
    apply get_response_started. by apply (Hall sid c).
  - rewrite end_session_delete. by apply map_Forall_delete.
Qed.

(** X6. Whatever requests the three session endpoints have served, model
    calls raising or not, every manager in the registry has max_turns 10,
    the greeting as the first entry of its history, a turn_count of at least
    1 that is the number of its user turns, and a history of at least
    turn_count and at most twice turn_count entries. *)
Theorem registry_holds_started_managers (requests : list Request) :
  map_Forall (fun _ m => started m) (serve_all requests).
Proof.
  unfold serve_all.
  assert (map_Forall (fun (_ : str) m => started m) (∅ : gmap str ConversationManager))
    as Hempty by apply map_Forall_empty.
  revert Hempty. generalize (∅ : gmap str ConversationManager).
  induction requests as [|r requests IH]; intros conversations Hall; [done|].
  simpl. apply IH. by apply serve_started.
Qed.

(** X7. A request changes nothing under the other session ids. *)
Theorem serve_leaves_other_sessions (conversations : gmap str ConversationManager)
    (r : Request) (other : str) :
  other <> request_session r ->
  serve conversations r !! other = conversations !! other.
Proof.
  intros Hother. destruct r as [sid t l lang resp aresp au|sid msg resp aresp au|sid];
    unfold serve, request_session in *.
  - rewrite start_session_registry. by apply lookup_insert_ne.
  - rewrite send_message_registry.
    destruct (conversations !! sid); [by apply lookup_insert_ne|done].
  - rewrite end_session_delete. by apply lookup_delete_ne.
Qed.



End Requests.

(** ** The assessment under the reference decoder *)

Lemma JSONObject_dict (fuel : nat) :
  forall (s : str) (pairs : list (str * JSON)) (v : JSON) (rest : str),
    Decoder.JSONObject fuel s pairs = Some (v, rest) -> exists d, v = JDict d.
Proof.
  induction fuel as [|fuel IH]; intros s pairs v rest; [done|].
  simpl. destruct (Decoder.scanstring s []) as [[key s1]|]; [|done]. simpl.
  destruct (Decoder.skip_ws s1) as [|c s2]; [done|].
  destruct (c =? 58); [|done].
  destruct (Decoder.scan_once fuel (Decoder.skip_ws s2)) as [[value s3]|]; [|done].
  simpl. destruct (Decoder.skip_ws s3) as [|n s4]; [done|].
  destruct (n =? 125).
  - intros [= <- _]. by eexists.
  - destruct (n =? 44); [|done].
    destruct (Decoder.skip_ws s4) as [|q s5]; [done|].
    destruct (q =? 34); [|done]. apply IH.
Qed.

(** What begins with an opening brace decodes to a dict or not at all. *)
Lemma decode_brace_dict (r : str) (v : JSON) :
  Decoder.decode (123 :: r) = Some v -> exists d, v = JDict d.
Proof.
  unfold Decoder.decode.
  change (Decoder.skip_ws (123 :: r)) with (123 :: r).
  generalize (length (123%N :: r) + 2)%nat. intros fuel.
  destruct (Decoder.scan_once fuel (123 :: r)) as [[obj rest]|] eqn:Hscan; [|done].
  simpl. intros Hv.
  assert (obj = v) as -> by (by destruct (Decoder.skip_ws rest); simplify_eq).
  destruct fuel as [|fuel]; [done|]. simpl in Hscan.
  destruct (Decoder.skip_ws r) as [|c1 t]; [done|].
  destruct (c1 =? 125).
  - injection Hscan as <- _. by eexists.
  - destruct (c1 =? 34); [|done]. by apply JSONObject_dict in Hscan.
Qed.

Lemma index_drop (c : N) (s : str) (i : nat) :
  index [c] s = Some i -> exists R, drop i s = c :: R.
Proof.
  revert i. induction s as [|x s IH]; intros i; simpl; [done|].
  destruct (c =? x) eqn:Hcx; simpl.
  - intros [= <-]. apply N.eqb_eq in Hcx as ->. by eexists.
  - destruct (index [c] s) as [j|]; [|done]. simpl. intros [= <-]. by apply IH.
Qed.

(** The candidate is empty or begins with the opening brace. *)
Lemma json_candidate_shape (assessment_text json_str : str) :
  json_candidate assessment_text = Some json_str ->
  json_str = [] \/ exists r, json_str = 123 :: r.
Proof.
  unfold json_candidate. change (lit "{") with [123].
  destruct (index [123] assessment_text) as [i|] eqn:Hi; [|done]. simpl.
  destruct (rindex (lit "}") assessment_text) as [j|]; [|done]. simpl.
  intros [= <-]. unfold slice.
  destruct (index_drop _ _ _ Hi) as [R ->].
  destruct (S j - i)%nat; [by left|right]. by eexists.
Qed.

(** X9. With the reference decoder, what get_response returns as the
    assessment is always a dict that has the five required keys: the test
    [field in assessment] never meets a list, a string or a number. *)
Theorem reference_assessment_is_dict_with_required_fields :
  forall assessment_response : option str,
    exists d : list (str * JSON),
      @final_assessment reference_python assessment_response = JDict d
      /\ forallb (fun f => dict_has f d) required_fields = true.
Proof.
  intros assessment_response.
  assert (exists d, fallback_assessment = JDict d
                    /\ forallb (fun f => dict_has f d) required_fields = true)
    as Hfallback by (eexists; split; reflexivity).
  assert (exists d, except_assessment = JDict d
                    /\ forallb (fun f => dict_has f d) required_fields = true)
    as Hexcept by (eexists; split; reflexivity).
  unfold final_assessment, try_assessment, mbind, option_bind.
  destruct assessment_response as [text|]; [|exact Hexcept]. cbv beta iota zeta.
  destruct (contains _ _ && contains _ _); [|exact Hfallback].
  destruct (json_candidate (unfence (strip text))) as [json_str|] eqn:Hcand;
    [|exact Hexcept].
  change (@json_loads reference_python json_str) with (Decoder.decode json_str).
  destruct (json_candidate_shape _ _ Hcand) as [->|[r ->]]; [exact Hexcept|].
  destruct (Decoder.decode (123 :: r)) as [v|] eqn:Hdecode; [|exact Hexcept].
  destruct (decode_brace_dict _ _ Hdecode) as [d ->].
  rewrite py_all_dict.
  destruct (forallb (fun f => dict_has f d) required_fields) eqn:Hkeys;
    [|exact Hfallback].
  exists d. by split.
Qed.

(** ** The context of the first model call *)

Lemma add_message_topic (r c : str) (self : ConversationManager) :
  topic (add_message r c self) = topic self.
Proof. unfold add_message. by destruct (Str.eqb r (lit "user")). Qed.

Lemma add_message_lesson_content (r c : str) (self : ConversationManager) :
  lesson_content (add_message r c self) = lesson_content self.
Proof. unfold add_message. by destruct (Str.eqb r (lit "user")). Qed.

Lemma history_lines_app (h1 h2 : list Turn) :
  history_lines (h1 ++ h2) = history_lines h1 ++ history_lines h2.
Proof. unfold history_lines. apply flat_map_app. Qed.

Lemma history_lines_one (r c : str) :
  history_lines [{| role := r; content := c |}] = r ++ lit ": " ++ c ++ [10].
Proof. unfold history_lines. cbn [flat_map role content]. by rewrite app_nil_r. Qed.

Lemma alike_add_message (r c : str) (m1 m2 : ConversationManager) :
  alike m1 m2 -> alike (add_message r c m1) (add_message r c m2).
Proof.
  intros (Ht & Hl & Hg & Hn & Hm & Hh). unfold alike.
  rewrite !add_message_topic, !add_message_lesson_content, !add_message_language,
    !add_message_turn_count, !add_message_max_turns, !add_message_history,
    !history_lines_app.
  split_and!; congruence.
Qed.

Lemma alike_context (m1 m2 : ConversationManager) :
  alike m1 m2 -> context m1 = context m2.
Proof.
  destruct m1 as [t1 l1 g1 h1 n1 x1], m2 as [t2 l2 g2 h2 n2 x2].
  intros (Ht & Hl & Hg & Hn & Hm & Hh). simpl in *. subst.
  unfold context. simpl. by rewrite Hh.
Qed.

Section Contexts.

Context `{Python}.

Lemma alike_apply_op (o : Op) (m1 m2 : ConversationManager) :
  alike m1 m2 -> alike (apply_op m1 o) (apply_op m2 o).
Proof.
  intros Halike. destruct o as [r c|c]; simpl.
  - by apply alike_add_message.
  - unfold respond. rewrite !get_response_manager.
    destruct (call_response c); by repeat apply alike_add_message.
Qed.

Lemma alike_run (ops : list Op) :
  forall m1 m2 : ConversationManager, alike m1 m2 -> alike (run ops m1) (run ops m2).
Proof.
  induction ops as [|o ops IH]; intros m1 m2 Halike; [done|].
  unfold run. simpl. apply IH. by apply alike_apply_op.
Qed.

Lemma run_length (ops : list Op) :
  exists n : nat,
    forall m : ConversationManager,
      length (history (run ops m)) = (length (history m) + n)%nat.
Proof.
  induction ops as [|o ops [n IH]].
  - exists 0%nat. intros m. simpl. lia.
  - destruct o as [r c|c].
    + exists (1 + n)%nat. intros m. unfold run in *. simpl. rewrite IH.
      rewrite add_message_history, length_app. simpl. lia.
    + exists (match call_response c with Some _ => 2 | None => 1 end + n)%nat.
      intros m. unfold run in *. simpl. rewrite IH. unfold respond.
      rewrite get_response_manager.
      destruct (call_response c);
        rewrite !add_message_history, !length_app; simpl; lia.
Qed.

(** X10. The context does not mark where a message ends.  A user message
    that goes on, after a line feed, with the word assistant, a colon and a
    text gives the model the same context as the first part of the message
    followed by an assistant turn with that text, and so does every later
    call, whatever is appended in between; yet the two histories differ by
    one entry. *)
Theorem context_cannot_tell_forged_assistant_turn :
  forall (self : ConversationManager) (said reply : str) (ops : list Op),
    let forged :=
      add_message (lit "user") (said ++ [10] ++ lit "assistant: " ++ reply) self in
    let genuine :=
      add_message (lit "assistant") reply (add_message (lit "user") said self) in
    context (run ops forged) = context (run ops genuine)
    /\ turn_count (run ops forged) = turn_count (run ops genuine)
    /\ length (history (run ops genuine)) = S (length (history (run ops forged))).
Proof.
  intros self said reply ops forged genuine.
  assert (alike forged genuine) as Halike.
  { subst forged genuine. unfold alike.
    rewrite !add_message_topic, !add_message_lesson_content, !add_message_language,
      !add_message_turn_count, !add_message_max_turns, !add_message_history,
      !history_lines_app, user_is_user, assistant_is_not_user.
    split_and!; try done; [lia|].
    rewrite !history_lines_one.
    change (lit "assistant: ") with (lit "assistant" ++ lit ": ").
    by rewrite <- !app_assoc. }
  pose proof (alike_run ops _ _ Halike) as Hrun.
  split_and!.
  - by apply alike_context.
  - by destruct Hrun as (_ & _ & _ & Hn & _).
  - destruct (run_length ops) as [n Hlen]. rewrite !Hlen.
    subst forged genuine. rewrite !add_message_history, !length_app. simpl. lia.
Qed.

End Contexts.

(** ** The history in the assessment prompt *)

Section Escapes.

Import Decoder Encoder.

Lemma land_shiftl_low (a b k : N) : b < 2 ^ k -> N.land (N.shiftl a k) b = 0.
Proof.
  intros Hb. apply N.bits_inj_0. intros i. rewrite N.land_spec.
  destruct (N.lt_ge_cases i k) as [Hi|Hi].
  - by rewrite N.shiftl_spec_low.
  - destruct (N.eq_dec b 0) as [->|Hb0].
    + by rewrite N.bits_0, andb_false_r.
    + rewrite (N.bits_above_log2 b i), andb_false_r; [done|].
      apply N.lt_le_trans with k; [|done].
      apply N.log2_lt_pow2; [lia|done].
Qed.

(** Bits put above [k] bits: the disjunction is a sum. *)
Lemma lor_shiftl_low (a b k : N) :
  b < 2 ^ k -> N.lor (N.shiftl a k) b = a * 2 ^ k + b.
Proof.
  intros Hb.
  rewrite <- N.lxor_lor, <- N.add_nocarry_lxor by (by apply land_shiftl_low).
  by rewrite N.shiftl_mul_pow2.
Qed.

Lemma hex_sum (n : N) :
  n < 65536 ->
  ((n / 4096 mod 16 * 16 + n / 256 mod 16) * 16 + n / 16 mod 16) * 16 + n mod 16 = n.
Proof. intros Hn. zify. Z.to_euclidean_division_equations. lia. Qed.

Lemma hexval_hexdigit (d : N) : d < 16 -> hexval (hexdigit d) = Some d.
Proof.
  intros Hd. unfold hexdigit, hexval, digit.
  destruct (d <? 10) eqn:Hten.
  - apply N.ltb_lt in Hten.
    rewrite (proj2 (N.leb_le 48 (48 + d))), (proj2 (N.leb_le (48 + d) 57)) by lia.
    simpl. f_equal. lia.
  - apply N.ltb_ge in Hten.
    rewrite (proj2 (N.leb_gt (87 + d) 57)), andb_false_r by lia.
    rewrite (proj2 (N.leb_le 97 (87 + d))), (proj2 (N.leb_le (87 + d) 102)) by lia.
    simpl. f_equal. lia.
Qed.

Lemma hex4_digits (n : N) :
  n < 65536 ->
  hex4 (hexdigit (n / 4096 mod 16)) (hexdigit (n / 256 mod 16))
    (hexdigit (n / 16 mod 16)) (hexdigit (n mod 16)) = Some n.
Proof.
  intros Hn. unfold hex4.
  rewrite !hexval_hexdigit by (apply N.mod_lt; lia).
  simpl. f_equal. by apply hex_sum.
Qed.

Lemma scanstring_plain (c : N) (tl acc : str) :
  (c =? 34) = false -> (c <? 32) = false -> (c =? 92) = false ->
  scanstring (c :: tl) acc = scanstring tl (c :: acc).
Proof. intros H34 H32 H92. simpl. by rewrite H34, H32, H92. Qed.

Lemma scanstring_u_step (h1 h2 h3 h4 uni : N) (tl acc : str) :
  hex4 h1 h2 h3 h4 = Some uni ->
  (0xD800 <=? uni) && (uni <=? 0xDBFF) = false ->
  scanstring (92 :: 117 :: h1 :: h2 :: h3 :: h4 :: tl) acc = scanstring tl (uni :: acc).
Proof.
  intros Hhex Hrange.
  change (scanstring (92 :: 117 :: h1 :: h2 :: h3 :: h4 :: tl) acc)
    with (match hex4 h1 h2 h3 h4 with
          | None => None
          | Some uni =>
            if (0xD800 <=? uni) && (uni <=? 0xDBFF) then
              match tl with
              | b :: u :: r3 =>
                if (b =? 92) && (u =? 117) then
                  match r3 with
                  | g1 :: g2 :: g3 :: g4 :: r4 =>
                    match hex4 g1 g2 g3 g4 with
                    | None => None
                    | Some uni2 =>
                      if (0xDC00 <=? uni2) && (uni2 <=? 0xDFFF)
                      then scanstring r4
                             (0x10000 + N.lor (N.shiftl (uni - 0xD800) 10) (uni2 - 0xDC00)
                              :: acc)
                      else scanstring tl (uni :: acc)
                    end
                  | _ => None
                  end
                else scanstring tl (uni :: acc)
              | _ => scanstring tl (uni :: acc)
              end
            else scanstring tl (uni :: acc)
          end).
  by rewrite Hhex, Hrange.
Qed.

Lemma scanstring_pair_step (h1 h2 h3 h4 g1 g2 g3 g4 s1 s2 : N) (tl acc : str) :
  hex4 h1 h2 h3 h4 = Some s1 ->
  (0xD800 <=? s1) && (s1 <=? 0xDBFF) = true ->
  hex4 g1 g2 g3 g4 = Some s2 ->
  (0xDC00 <=? s2) && (s2 <=? 0xDFFF) = true ->
  scanstring (92 :: 117 :: h1 :: h2 :: h3 :: h4 :: 92 :: 117 :: g1 :: g2 :: g3 :: g4 :: tl)
    acc
  = scanstring tl (0x10000 + N.lor (N.shiftl (s1 - 0xD800) 10) (s2 - 0xDC00) :: acc).
Proof.
  intros Hh Hhigh Hg Hlow.
  change (scanstring
            (92 :: 117 :: h1 :: h2 :: h3 :: h4 :: 92 :: 117 :: g1 :: g2 :: g3 :: g4 :: tl)
            acc)
    with (match hex4 h1 h2 h3 h4 with
          | None => None
          | Some uni =>
            if (0xD800 <=? uni) && (uni <=? 0xDBFF) then
              match hex4 g1 g2 g3 g4 with
              | None => None
              | Some uni2 =>
                if (0xDC00 <=? uni2) && (uni2 <=? 0xDFFF)
                then scanstring tl
                       (0x10000 + N.lor (N.shiftl (uni - 0xD800) 10) (uni2 - 0xDC00)
                        :: acc)
                else scanstring (92 :: 117 :: g1 :: g2 :: g3 :: g4 :: tl) (uni :: acc)
              end
            else scanstring (92 :: 117 :: g1 :: g2 :: g3 :: g4 :: tl) (uni :: acc)
          end).
  by rewrite Hh, Hhigh, Hg, Hlow.
Qed.

End Escapes.

Section Strings.

Import Decoder Encoder.

(** The surrogates of a code point from 65536 on, and the code point they
    are joined into. *)
Lemma surrogates (c : N) :
  65536 <= c -> c < 0x110000 ->
  let n := c - 65536 in
  let s1 := N.lor 0xD800 (N.land (N.shiftr n 10) 0x3FF) in
  let s2 := N.lor 0xDC00 (N.land n 0x3FF) in
  s1 = 0xD800 + n / 1024 /\ s2 = 0xDC00 + n mod 1024
  /\ 0x10000 + N.lor (N.shiftl (s1 - 0xD800) 10) (s2 - 0xDC00) = c.
Proof.
  intros Hlo Hhi n s1 s2.
  assert (n < 1048576) as Hn by (subst n; lia).
  assert (n / 1024 < 1024) as Hdiv by (apply N.Div0.div_lt_upper_bound; lia).
  assert (n mod 1024 < 1024) as Hmod by (apply N.mod_lt; lia).
  assert (s1 = 0xD800 + n / 1024) as Hs1.
  { subst s1. change 0x3FF with (N.ones 10). rewrite N.land_ones, N.shiftr_div_pow2.
    change (2 ^ 10) with 1024. rewrite N.mod_small by done.
    change 0xD800 with (N.shiftl 54 10). rewrite lor_shiftl_low by done.
    by rewrite N.shiftl_mul_pow2. }
  assert (s2 = 0xDC00 + n mod 1024) as Hs2.
  { subst s2. change 0x3FF with (N.ones 10). rewrite N.land_ones.
    change (2 ^ 10) with 1024.
    change 0xDC00 with (N.shiftl 55 10). rewrite lor_shiftl_low by done.
    by rewrite N.shiftl_mul_pow2. }
  split_and!; [done|done|].
  rewrite Hs1, Hs2.
  rewrite (N.add_comm 0xD800), (N.add_comm 0xDC00), !N.add_sub.
  rewrite lor_shiftl_low by done. change (2 ^ 10) with 1024.
  pose proof (N.div_mod n 1024). subst n. lia.
Qed.

(** What json.dumps writes for a code point, scanstring reads back as that
    code point. *)
Lemma scanstring_escape_char (c : N) (tl acc : str) :
  scalar_value c = true ->
  scanstring (escape_char c ++ tl) acc = scanstring tl (c :: acc).
Proof.
  intros Hscalar. unfold escape_char.
  destruct (c =? 34) eqn:H34; [by apply N.eqb_eq in H34 as ->|].
  destruct (c =? 92) eqn:H92; [by apply N.eqb_eq in H92 as ->|].
  destruct (c =? 10) eqn:H10; [by apply N.eqb_eq in H10 as ->|].
  destruct (c =? 13) eqn:H13; [by apply N.eqb_eq in H13 as ->|].
  destruct (c =? 9) eqn:H9; [by apply N.eqb_eq in H9 as ->|].
  destruct (c =? 12) eqn:H12; [by apply N.eqb_eq in H12 as ->|].
  destruct (c =? 8) eqn:H8; [by apply N.eqb_eq in H8 as ->|].
  destruct ((32 <=? c) && (c <=? 126)) eqn:Hprint.
  - apply andb_true_iff in Hprint as [Hlo _]. apply N.leb_le in Hlo.
    apply scanstring_plain; [done| |done]. apply N.ltb_ge. lia.
  - destruct (c <? 65536) eqn:Hbmp.
    + apply N.ltb_lt in Hbmp. unfold u_escape. cbn [app].
      apply scanstring_u_step; [by apply hex4_digits|].
      unfold scalar_value in Hscalar.
      apply orb_true_iff in Hscalar as [Hlow|Hhigh].
      * apply N.ltb_lt in Hlow. rewrite (proj2 (N.leb_gt 0xD800 c)); [done|lia].
      * apply andb_true_iff in Hhigh as [Hhigh _]. apply N.ltb_lt in Hhigh.
        rewrite (proj2 (N.leb_gt c 0xDBFF)), andb_false_r; [done|lia].
    + apply N.ltb_ge in Hbmp.
      assert (c < 0x110000) as Hmax.
      { unfold scalar_value in Hscalar.
        apply orb_true_iff in Hscalar as [Hlow|Hhigh].
        - apply N.ltb_lt in Hlow. lia.
        - apply andb_true_iff in Hhigh as [_ Hhigh]. by apply N.ltb_lt in Hhigh. }
      destruct (surrogates c Hbmp Hmax) as (Hs1 & Hs2 & Hjoin).
      cbv zeta in Hs1, Hs2, Hjoin |- *.
      set (n := c - 65536) in *.
      set (s1 := N.lor 0xD800 (N.land (N.shiftr n 10) 0x3FF)) in *.
      set (s2 := N.lor 0xDC00 (N.land n 0x3FF)) in *.
      assert (n / 1024 < 1024) as Hdiv
        by (apply N.Div0.div_lt_upper_bound; subst n; lia).
      assert (n mod 1024 < 1024) as Hmod by (apply N.mod_lt; lia).
      clearbody s1 s2.
      set (q := n / 1024) in *. set (r := n mod 1024) in *. clearbody q r.
      unfold u_escape. cbn [app].
      rewrite (scanstring_pair_step _ _ _ _ _ _ _ _ s1 s2).
      * by rewrite Hjoin.
      * apply hex4_digits. lia.
      * apply andb_true_iff. split; apply N.leb_le; lia.
      * apply hex4_digits. lia.
      * apply andb_true_iff. split; apply N.leb_le; lia.
Qed.

Lemma scanstring_encoded (s : str) :
  forallb scalar_value s = true ->
  forall tl acc : str,
    scanstring (flat_map escape_char s ++ 34 :: tl) acc = Some (rev acc ++ s, tl).
Proof.
  induction s as [|c s IH]; intros Hs tl acc.
  - simpl. by rewrite app_nil_r.
  - simpl in Hs. apply andb_true_iff in Hs as [Hc Hs].
    cbn [flat_map]. rewrite <- app_assoc, scanstring_escape_char by done.
    rewrite IH by done. simpl. by rewrite <- app_assoc.
Qed.

End Strings.

Section Blocks.

Import Decoder Encoder.

(** The code points of one written entry. *)
Lemma dumps_turn_text (t : Turn) (rest : str) :
  dumps_turn t ++ rest
  = [123; 10; 32; 32; 32; 32; 34; 114; 111; 108; 101; 34; 58; 32; 34]
    ++ flat_map escape_char (role t)
    ++ [34; 44; 10; 32; 32; 32; 32; 34; 99; 111; 110; 116; 101; 110; 116; 34; 58; 32; 34]
    ++ flat_map escape_char (content t) ++ [34; 10; 32; 32; 125] ++ rest.
Proof.
  unfold dumps_turn, encode_string.
  change (lit "{") with [123]. change (lit "    ") with [32; 32; 32; 32].
  change (dq "'role': ") with [34; 114; 111; 108; 101; 34; 58; 32].
  change (dq "'content': ") with [34; 99; 111; 110; 116; 101; 110; 116; 34; 58; 32].
  change (lit ",") with [44]. change (lit "  }") with [32; 32; 125].
  rewrite <- !app_assoc. cbn [app]. rewrite <- !app_assoc. cbn [app].
  reflexivity.
Qed.

(** The scanner reads a written entry back, and stops after it. *)
Lemma scan_turn (fuel : nat) (t : Turn) (rest : str) :
  forallb scalar_value (role t) = true ->
  forallb scalar_value (content t) = true ->
  scan_once (4 + fuel) (dumps_turn t ++ rest) = Some (turn_json t, rest).
Proof.
  intros Hrole Hcontent. rewrite dumps_turn_text. cbn [app].
  change (4 + fuel)%nat with (S (S (S (S fuel)))).
  simpl. rewrite scanstring_encoded by done. simpl.
  rewrite scanstring_encoded by done. simpl. reflexivity.
Qed.

Lemma dumps_turn_brace (t : Turn) (rest : str) :
  exists tl : str, dumps_turn t ++ rest = 123 :: tl.
Proof. rewrite dumps_turn_text. by eexists. Qed.

Lemma dumps_items_brace (t : Turn) (more : list Turn) (rest : str) :
  exists tl : str, dumps_items (t :: more) ++ rest = 123 :: tl.
Proof.
  cbn [dumps_items]. rewrite <- app_assoc.
  apply dumps_turn_brace.
Qed.

Lemma dumps_items_cons (t t' : Turn) (h : list Turn) :
  dumps_items (t :: t' :: h) = dumps_turn t ++ [44; 10; 32; 32] ++ dumps_items (t' :: h).
Proof. reflexivity. Qed.

Lemma JSONArray_more (fuel : nat) (s tl : str) (v : JSON) (values : list JSON) :
  scan_once fuel s = Some (v, 44 :: 10 :: 32 :: 32 :: 123 :: tl) ->
  JSONArray (S fuel) s values = JSONArray fuel (123 :: tl) (values ++ [v]).
Proof. intros Hv. simpl. by rewrite Hv. Qed.

Lemma JSONArray_last (fuel : nat) (s rest : str) (v : JSON) (values : list JSON) :
  scan_once fuel s = Some (v, 10 :: 93 :: rest) ->
  JSONArray (S fuel) s values = Some (JList (values ++ [v]), rest).
Proof. intros Hv. simpl. by rewrite Hv. Qed.

(** The scanner reads the written entries back, one unit of fuel for each
    of them and four for what an entry holds. *)
Lemma scan_items (h : list Turn) :
  forall (t : Turn) (fuel : nat) (values : list JSON) (rest : str),
    forallb (fun e => forallb scalar_value (role e) && forallb scalar_value (content e))
      (t :: h) = true ->
    JSONArray (length (t :: h) + 4 + fuel) (dumps_items (t :: h) ++ 10 :: 93 :: rest)
      values
    = Some (JList (values ++ map turn_json (t :: h)), rest).
Proof.
  induction h as [|t' h IH]; intros t fuel values rest Hok;
    cbn [forallb] in Hok; apply andb_true_iff in Hok as [Ht Hrest];
    apply andb_true_iff in Ht as [Hrole Hcontent].
  - cbn [dumps_items length map]. rewrite app_nil_r.
    change (1 + 4 + fuel)%nat with (S (4 + fuel)).
    apply JSONArray_last. by apply scan_turn.
  - destruct (dumps_items_brace t' h (10 :: 93 :: rest)) as [tl Htl].
    rewrite dumps_items_cons, <- !app_assoc. cbn [app]. rewrite Htl.
    replace (length (t :: t' :: h) + 4 + fuel)%nat
      with (S (4 + (S (length h) + fuel))) by (simpl; lia).
    rewrite (JSONArray_more _ _ tl (turn_json t)) by (by apply scan_turn).
    rewrite <- Htl.
    replace (4 + (S (length h) + fuel))%nat with (length (t' :: h) + 4 + fuel)%nat
      by (simpl; lia).
    rewrite IH by done. cbn [map]. by rewrite <- app_assoc.
Qed.

Lemma dumps_items_length (h : list Turn) :
  (length h <= length (dumps_items h))%nat.
Proof.
  induction h as [|t h IH]; [done|].
  cbn [dumps_items]. destruct (dumps_turn_brace t []) as [tl Htl].
  rewrite app_nil_r in Htl. rewrite length_app, Htl.
  destruct h as [|t' h]; [simpl; lia|].
  rewrite !length_app. simpl in *. lia.
Qed.

(** json.loads gives back the entries json.dumps wrote. *)
Lemma decode_dumps (h : list Turn) :
  forallb (fun e => forallb scalar_value (role e) && forallb scalar_value (content e)) h
  = true ->
  decode (dumps h) = Some (JList (map turn_json h)).
Proof.
  intros Hok. destruct h as [|t h]; [done|].
  unfold dumps. change (lit "[") with [91]. change (lit "  ") with [32; 32].
  change (lit "]") with [93]. cbn [app].
  destruct (dumps_items_brace t h [10; 93]) as [tl Htl].
  pose proof (dumps_items_length (t :: h)) as Hlen.
  unfold decode. rewrite Htl.
  change (skip_ws (91 :: 10 :: 32 :: 32 :: 123 :: tl))
    with (91 :: 10 :: 32 :: 32 :: 123 :: tl).
  assert (length tl = length (dumps_items (t :: h)) + 1)%nat as Htext.
  { apply (f_equal length) in Htl. rewrite length_app in Htl. cbn [length] in Htl. lia. }
  cbn [length]. rewrite Htext.
  replace (S (S (S (S (S (length (dumps_items (t :: h)) + 1))))) + 2)%nat
    with (S (length (t :: h) + 4
             + (length (dumps_items (t :: h)) - length (t :: h) + 3)))
    by lia.
  change (scan_once (S ?f) (91 :: 10 :: 32 :: 32 :: 123 :: tl))
    with (JSONArray f (123 :: tl) []).
  rewrite <- Htl, scan_items by done.
  reflexivity.
Qed.

End Blocks.

Lemma forallb_drop {A : Type} (f : A -> bool) (n : nat) (l : list A) :
  forallb f l = true -> forallb f (drop n l) = true.
Proof.
  revert l. induction n as [|n IH]; intros [|x l]; simpl; try done.
  intros [_ Hl]%andb_true_iff. by apply IH.
Qed.

(** X11. The history in the assessment prompt is the last twenty entries,
    or all of them when there are fewer, written so that json.loads reads
    them back as they are, role and content, code point for code point:
    no quote, backslash, line feed or brace of a message changes what the
    block holds. *)
Theorem assessment_prompt_history_decodes :
  forall self : ConversationManager,
    well_formed_history (history self) = true ->
    let window := last_entries 20 (history self) in
    Decoder.decode (Encoder.dumps window) = Some (JList (map turn_json window))
    /\ window `suffix_of` history self
    /\ length window = Nat.min 20 (length (history self)).
Proof.
  intros self Hok window. subst window. unfold last_entries. split_and!.
  - apply decode_dumps. by apply forallb_drop.
  - apply suffix_drop.
  - rewrite length_drop. lia.
Qed.

(** ** The star row of the test page *)

(** X12. For an integer number of stars the row is built, with five symbols,
    exactly when the number is between 0 and 5; for any other number the
    call of repeat throws. *)
Theorem star_row_needs_stars_within_five :
  forall stars : Z,
    (star_row stars = None <-> ~ (0 <= stars <= 5)%Z)
    /\ ((0 <= stars <= 5)%Z ->
        star_row stars
        = Some (concat (replicate (Z.to_nat stars) (lit "⭐"))
                ++ concat (replicate (Z.to_nat (5 - stars)) (lit "☆")))
        /\ (length <$> star_row stars) = Some 5%nat).
Proof.
  intros stars. unfold star_row, js_repeat.
  destruct (stars <? 0)%Z eqn:Hneg; simpl.
  - apply Z.ltb_lt in Hneg. split; [split; [lia|done]|lia].
  - apply Z.ltb_ge in Hneg. destruct (5 - stars <? 0)%Z eqn:Hover; simpl.
    + apply Z.ltb_lt in Hover. split; [split; [lia|done]|lia].
    + apply Z.ltb_ge in Hover. split; [split; [done|lia]|].
      intros _. split; [done|]. f_equal.
      rewrite length_app.
      assert (forall (n : nat) (c : N), length (concat (replicate n [c])) = n) as Hone.
      { intros n c. induction n as [|n IH]; simpl; [done|]. by rewrite IH. }
      change (lit "⭐") with [11088]. change (lit "☆") with [9734].
      rewrite !Hone. lia.
Qed.

(** ** Instances *)

Lemma startup_raises_iff_no_model_built_witness :
  startup_model sample_listing no_option_built = None.
Proof.
  apply (startup_raises_iff_no_model_built no_option_built sample_listing).
  intros j name _. reflexivity.
Defined.

Lemma startup_selects_first_working_witness :
  model_options sample_listing !! 2%nat = Some (lit "gemini-1.5-pro")
  /\ startup_model sample_listing third_option_works = Some (lit "gemini-1.5-pro").
Proof.
  assert (model_options sample_listing !! 2%nat = Some (lit "gemini-1.5-pro")) as Hj
    by reflexivity.
  split; [exact Hj|].
  apply (startup_selects_first_working third_option_works sample_listing 2
           (lit "gemini-1.5-pro") Hj); [reflexivity|].
  intros k name' Hk _. destruct k as [|[|k]]; [discriminate|discriminate|lia].
Defined.

Lemma startup_keeps_model_that_failed_witness :
  model_options sample_listing !! 1%nat = Some (lit "gemini-1.5-flash")
  /\ startup_model sample_listing second_option_built = Some (lit "gemini-1.5-flash").
Proof.
  assert (model_options sample_listing !! 1%nat = Some (lit "gemini-1.5-flash")) as Hj
    by reflexivity.
  split; [exact Hj|].
  apply (startup_keeps_model_that_failed second_option_built sample_listing 1
           (lit "gemini-1.5-flash") Hj); [reflexivity| |].
  - intros k name' Hk _. destruct k as [|k]; [discriminate|lia].
  - intros k name' Hk _. destruct k as [|[|k]]; [lia|lia|reflexivity].
Defined.

Lemma text_to_speech_is_case_sensitive_witness :
  let self := @init reference_python (lit "Cafe") (lit "lesson") (lit "Hindi") in
  text_to_speech echo_code (lit "namaste") (lit "Hindi") = Some (lit "en")
  /\ language self = lit "hindi"
  /\ text_to_speech echo_code (lit "namaste") (language self) = Some (lit "hi")
  /\ lit "hi" <> lit "en".
Proof.
  intros self.
  assert (forallb is_ascii (lit "Hindi") = true) as Hascii by reflexivity.
  assert (map ascii_lower (lit "Hindi") ∈ language_keys) as Hkey
    by (apply (bool_decide_unpack _); by vm_compute).
  assert (lit "Hindi" ∉ language_keys) as Hspelled
    by (apply (bool_decide_unpack _); by vm_compute).
  destruct (@text_to_speech_is_case_sensitive reference_python echo_code (lit "namaste")
              (lit "Cafe") (lit "lesson") (lit "Hindi") Hascii Hkey Hspelled)
    as (Hen & _ & Hhi & Hother).
  split_and!; [exact Hen | reflexivity | exact Hhi |].
  apply Hother. by vm_compute.
Defined.

Lemma serve_leaves_other_sessions_witness :
  let conversations : gmap str ConversationManager :=
    {[ lit "s2" := @init reference_python (lit "Cafe") (lit "lesson") (lit "english") ]} in
  lit "s2" <> lit "s1"
  /\ @serve reference_python conversations (EndSession (lit "s1")) !! lit "s2"
     = conversations !! lit "s2".
Proof.
  intros conversations.
  assert (lit "s2" <> lit "s1") as Hother by (by vm_compute).
  split; [exact Hother|].
  exact (@serve_leaves_other_sessions reference_python conversations
           (EndSession (lit "s1")) (lit "s2") Hother).
Defined.


Lemma assessment_prompt_history_decodes_witness :
  let self :=
    add_message (lit "user") (dq "He said 'hola' \ {ok}")
      (@init reference_python (lit "Cafe") (lit "lesson") (lit "english")) in
  well_formed_history (history self) = true
  /\ Decoder.decode (Encoder.dumps (last_entries 20 (history self)))
     = Some (JList (map turn_json (last_entries 20 (history self)))).
Proof.
  intros self.
  assert (well_formed_history (history self) = true) as Hok by reflexivity.
  split; [exact Hok|].
  exact (proj1 (assessment_prompt_history_decodes self Hok)).
Defined.

Lemma star_row_needs_stars_within_five_witness :
  star_row 7 = None /\ (length <$> star_row 3) = Some 5%nat.
Proof.
  split.
  - apply (proj1 (star_row_needs_stars_within_five 7)). lia.
  - apply (proj2 (star_row_needs_stars_within_five 3)). lia.
Defined.
